(** * PlayFinder UK: the data-access layer and the search page's filters

    A shallow embedding of [src/lib/supabase.ts] (keyed TTL cache,
    timeout race, safe query wrapper, custom fetch) and of the in-memory
    filter chain of the search results page, with the properties the
    specification states about them. *)

From Stdlib Require Import ZArith QArith Qminmax String Ascii List Bool Lia.
From stdpp Require Import gmap strings.
Import ListNotations.

Local Open Scope Z_scope.

(** ** JavaScript numbers and values *)

(** A JS number.  Finite values are rationals: the code only compares
    numbers that were read from decimal literals, and never computes with
    them, so no rounding is involved. *)
Inductive number : Type :=
  | NaN
  | NegInf
  | Fin (q : Q)
  | PosInf.

(** [a >= b] on numbers; any comparison with [NaN] is false. *)
Definition num_ge (a b : number) : bool :=
  match a, b with
  | NaN, _ | _, NaN => false
  | PosInf, _ => true
  | _, NegInf => true
  | Fin x, Fin y => Qle_bool y x
  | Fin _, PosInf => false
  | NegInf, _ => false
  end.

(** The smaller of two numbers, [NaN] if either is. *)
Definition num_min (a b : number) : number :=
  match a, b with
  | NaN, _ | _, NaN => NaN
  | NegInf, _ | _, NegInf => NegInf
  | PosInf, y => y
  | x, PosInf => x
  | Fin x, Fin y => if Qle_bool x y then Fin x else Fin y
  end.

(** [Math.min(...xs)]: [Infinity] for no argument. *)
Definition Math_min (xs : list number) : number :=
  fold_right num_min PosInf xs.

(** Truthiness of a number: neither [NaN] nor zero. *)
Definition num_truthy (a : number) : bool :=
  match a with
  | NaN => false
  | Fin q => negb (Qeq_bool q 0)
  | NegInf | PosInf => true
  end.

(** A number above zero: finite and positive, or [Infinity]. *)
Definition isPositive (r : number) : bool :=
  match r with
  | Fin x => negb (Qle_bool x 0)
  | PosInf => true
  | NaN | NegInf => false
  end.

(** A JS value, as far as the wrappers look into one. *)
#[local] Unset Elimination Schemes.
Inductive value : Type :=
  | VUndefined
  | VNull
  | VBool (b : bool)
  | VNum (n : number)
  | VStr (s : string)
  | VObj (fields : list (string * value)).
#[local] Set Elimination Schemes.

Definition truthy (v : value) : bool :=
  match v with
  | VUndefined | VNull => false
  | VBool b => b
  | VNum n => num_truthy n
  | VStr s => negb (String.eqb s "")
  | VObj _ => true
  end.

(** [new Error(msg)] and its subclasses, as the object they make. *)
Definition mkError (name msg : string) : value :=
  VObj [("name"%string, VStr name); ("message"%string, VStr msg)].

(** How a call ends: it returns, it throws, or (an [async] function whose
    awaited promise never settles) it never completes. *)
Inductive completion (A : Type) : Type :=
  | Returned (a : A)
  | Thrown (e : value)
  | Hangs.
Arguments Returned {A} a.
Arguments Thrown {A} e.
Arguments Hangs {A}.

(** What a run of a wrapper leaves behind for an observer: a call of the
    operation it was handed, and a [console.warn]. *)
Inductive event : Type :=
  | EvFetch
  | EvWarn (label : string) (detail : value).

Definition fetches (evs : list event) : nat :=
  List.length (List.filter (fun e => match e with EvFetch => true | _ => false end) evs).

Definition warnings (evs : list event) : list event :=
  List.filter (fun e => match e with EvWarn _ _ => true | _ => false end) evs.

(** ** Code that runs against a state, may throw, and may log *)

(** An operation the environment supplies (a fetcher, a query function):
    called and awaited, it ends in a completion and leaves a new state
    behind, since time passes and other code may run while it is awaited.
    One that throws before it returns its promise is the same as one whose
    promise rejects wherever the call sits in a [try] with its [await]. *)
Definition effect (S A : Type) : Type := S -> completion A * S.

(** The wrappers themselves. *)
Definition action (S A : Type) : Type := S -> completion A * S * list event.

Definition ret {S A} (a : A) : action S A :=
  fun s => (Returned a, s, []).

Definition throw {S A} (e : value) : action S A :=
  fun s => (Thrown e, s, []).

Definition bind {S A B} (m : action S A) (k : A -> action S B) : action S B :=
  fun s =>
    match m s with
    | (Returned a, s1, l1) => let '(c, s2, l2) := k a s1 in (c, s2, l1 ++ l2)
    | (Thrown e, s1, l1) => (Thrown e, s1, l1)
    | (Hangs, s1, l1) => (Hangs, s1, l1)
    end.

(** [try { m } catch (e) { h e }] *)
Definition tryCatch {S A} (m : action S A) (h : value -> action S A) : action S A :=
  fun s =>
    match m s with
    | (Thrown e, s1, l1) => let '(c, s2, l2) := h e s1 in (c, s2, l1 ++ l2)
    | r => r
    end.

Definition gets {S A} (f : S -> A) : action S A :=
  fun s => (Returned (f s), s, []).

Definition modify {S} (f : S -> S) : action S unit :=
  fun s => (Returned tt, f s, []).

Definition warn {S} (label : string) (detail : value) : action S unit :=
  fun s => (Returned tt, s, [EvWarn label detail]).

(** [await f()] *)
Definition invoke {S A} (f : effect S A) : action S A :=
  fun s => let '(c, s1) := f s in (c, s1, [EvFetch]).

Declare Scope action_scope.
Delimit Scope action_scope with action.
Notation "x <- m ;; k" := (bind m (fun x => k))
  (at level 20, m at level 99, k at level 200, only parsing) : action_scope.
Notation "m ;; k" := (bind m (fun _ => k))
  (at level 100, k at level 200, only parsing, right associativity) : action_scope.

(** ** The keyed TTL cache ([fetchWithCache], [clearCache]) *)

Module Cache.

(** [{ data, timestamp }] *)
Record entry : Type := { data : value; timestamp : Z }.

(** The module-level [cache] map and the clock [Date.now()] reads. *)
Record world : Type := { cache : gmap string entry; now : Z }.

Definition cache_get (key : string) : action world (option entry) :=
  gets (fun w => cache w !! key).

Definition cache_set (key : string) (e : entry) : action world unit :=
  modify (fun w => {| cache := <[key := e]> (cache w); now := now w |}).

Definition Date_now : action world Z := gets now.

Definition fetchWithCache (key : string) (fetcher : effect world value) (ttl : Z)
  : action world value :=
  (cachedData <- cache_get key ;;
   t <- Date_now ;;
   let refresh : action world value :=
     tryCatch
       (d <- invoke fetcher ;;
        t1 <- Date_now ;;
        cache_set key {| data := d; timestamp := t1 |} ;;
        ret d)
       (fun error =>
          warn ("Cache fetch error for key " +:+ key +:+ ":") error ;;
          match cachedData with
          | Some e => ret (data e)
          | None => throw error
          end) in
   match cachedData with
   | Some e => if timestamp e >? t - ttl then ret (data e) else refresh
   | None => refresh
   end)%action.

(** The default [ttl = 60000]. *)
Definition defaultTtl : Z := 60000.

(** [clearCache(key?)]: an absent or empty key clears everything. *)
Definition clearCache (key : option string) : action world unit :=
  modify (fun w =>
    match key with
    | Some k =>
        if String.eqb k "" then {| cache := ∅; now := now w |}
        else {| cache := delete k (cache w); now := now w |}
    | None => {| cache := ∅; now := now w |}
    end).

(** Is there an entry for [key] that is still fresh? *)
Definition fresh (key : string) (ttl : Z) (w : world) : bool :=
  match cache w !! key with
  | Some e => timestamp e >? now w - ttl
  | None => false
  end.

(** Time passing between two calls. *)
Definition setNow (t : Z) (w : world) : world :=
  {| cache := cache w; now := t |}.

(** Two plain fetchers: one that resolves, one that rejects, each after
    some milliseconds and without touching the cache. *)
Definition resolvesWith (d : value) (elapsed : Z) : effect world value :=
  fun w => (Returned d, setNow (now w + elapsed) w).

Definition rejectsWith (err : value) (elapsed : Z) : effect world value :=
  fun w => (Thrown err, setNow (now w + elapsed) w).

End Cache.

(** ** Timers, the timeout race and the client's custom fetch *)

Module Timers.

(** The event loop as far as timers go: the current time, the timers
    that are set and have neither fired nor been cleared (id to due time),
    and the next timer id. *)
Record loop : Type := { clock : Z; timers : gmap nat Z; nextTimer : nat }.

(** The loop once a timer has been set [delay] milliseconds ahead: a
    negative delay counts as none.  Delays are taken within the 32-bit
    range timers accept. *)
Definition armed (delay : Z) (l : loop) : loop :=
  {| clock := clock l;
     timers := <[nextTimer l := clock l + Z.max 0 delay]> (timers l);
     nextTimer := S (nextTimer l) |}.

(** [setTimeout(callback, delay)] *)
Definition setTimeout (delay : Z) : action loop nat :=
  fun l => (Returned (nextTimer l), armed delay l, []).

Definition clearTimeout (id : nat) : action loop unit :=
  modify (fun l =>
    {| clock := clock l; timers := delete id (timers l); nextTimer := nextTimer l |}).

(** Time moves to [t]; the timers that were due before [t] have fired. *)
Definition passTime (t : Z) (l : loop) : loop :=
  {| clock := t;
     timers := filter (fun kv => t <= kv.2) (timers l);
     nextTimer := nextTimer l |}.

(** Timer [id] fires at its due time [due]. *)
Definition fireTimer (id : nat) (due : Z) (l : loop) : loop :=
  {| clock := due;
     timers := delete id (filter (fun kv => due <= kv.2) (timers l));
     nextTimer := nextTimer l |}.

(** A promise in flight settles some milliseconds from now, or never. *)
Inductive promise : Type :=
  | ResolvesAfter (d : Z) (v : value)
  | RejectsAfter (d : Z) (e : value)
  | NeverSettles.

(** Calling the operation either throws at once or starts a promise. *)
Inductive operation : Type :=
  | Throws (e : value)
  | Starts (p : promise).

Definition call (f : operation) : action loop promise :=
  fun l =>
    match f with
    | Throws e => (Thrown e, l, [EvFetch])
    | Starts p => (Returned p, l, [EvFetch])
    end.

(** Which of two events comes first; the scheduler decides when both
    fall on the same millisecond. *)
Inductive winner : Type := Operation | Timer.

Definition first (tie : winner) (settles due : Z) : winner :=
  if settles <? due then Operation
  else if due <? settles then Timer
  else tie.

(** [await] of a promise that rejects with [err] when timer [id] fires and
    otherwise settles as [p] does: [Promise.race([p, timeoutPromise])], and
    a [fetch] whose signal the timer aborts. *)
Definition awaitRace (tie : winner) (p : promise) (id : nat) (err : value)
  : action loop value :=
  fun l =>
    match timers l !! id with
    | Some due =>
        match p with
        | ResolvesAfter d v =>
            match first tie (clock l + d) due with
            | Operation => (Returned v, passTime (clock l + d) l, [])
            | Timer => (Thrown err, fireTimer id due l, [])
            end
        | RejectsAfter d e =>
            match first tie (clock l + d) due with
            | Operation => (Thrown e, passTime (clock l + d) l, [])
            | Timer => (Thrown err, fireTimer id due l, [])
            end
        | NeverSettles => (Thrown err, fireTimer id due l, [])
        end
    | None =>
        match p with
        | ResolvesAfter d v => (Returned v, passTime (clock l + d) l, [])
        | RejectsAfter d e => (Thrown e, passTime (clock l + d) l, [])
        | NeverSettles => (Hangs, l, [])
        end
    end.

Definition fetchWithTimeout (tie : winner) (fetcher : operation) (timeout : Z)
    (fallback : value) : action loop value :=
  (tryCatch
     (timer <- setTimeout timeout ;;
      p <- call fetcher ;;
      result <- awaitRace tie p timer (mkError "Error" "Request timed out") ;;
      ret result)
     (fun error =>
        warn "Fetch error:" error ;;
        ret fallback))%action.

(** A loop that has just started: no timer set. *)
Definition idle : loop := {| clock := 0; timers := ∅; nextTimer := 0 |}.

(** The defaults [timeout = 5000] and [fallback = null]. *)
Definition defaultTimeout : Z := 5000.
Definition defaultFallback : value := VNull.

(** The [Response] the custom fetch makes up when the request fails. *)
Definition mockResponse : value :=
  VObj [("status"%string, VNum (Fin 200));
        ("body"%string,
         VObj [("error"%string, VStr "Network error"); ("fallback"%string, VBool true)])].

(** The [fetch] option of the client: the request is aborted by a timer
    after ten seconds, and the timer is cleared in [then] and in [catch].
    [network] is what the request does when left alone. *)
Definition supabaseFetch (tie : winner) (network : promise) : action loop value :=
  (timeoutId <- setTimeout 10000 ;;
   tryCatch
     (response <- awaitRace tie network timeoutId
                    (mkError "AbortError" "The operation was aborted.") ;;
      clearTimeout timeoutId ;;
      ret response)
     (fun error =>
        clearTimeout timeoutId ;;
        warn "Supabase fetch error:" error ;;
        ret mockResponse))%action.

End Timers.

(** ** [safeSupabaseQuery] *)

Module Query.

Definition nullish (v : value) : bool :=
  match v with
  | VUndefined | VNull => true
  | _ => false
  end.

(** The value of property [name] of a value that has properties, for a
    name no prototype defines: a primitive has none. *)
Definition field (v : value) (name : string) : value :=
  match v with
  | VObj fields =>
      match List.find (fun kv => String.eqb kv.1 name) fields with
      | Some kv => kv.2
      | None => VUndefined
      end
  | _ => VUndefined
  end.

(** [v[name]]: reading a property of [null] or [undefined] throws a
    [TypeError]. *)
Definition getProp {S} (v : value) (name : string) : action S value :=
  if nullish v
  then throw (mkError "TypeError" "Cannot read properties of null or undefined")
  else ret (field v name).

(** [{ data, error, usedFallback }] *)
Record answer : Type := { data : value; error : value; usedFallback : bool }.

Definition safeSupabaseQuery {S} (queryFn : effect S value) (fallbackData : value)
  : action S answer :=
  (tryCatch
     (result <- invoke queryFn ;;
      err <- getProp result "error" ;;
      if truthy err then
        warn "Supabase query error:" err ;;
        ret {| data := fallbackData; error := err; usedFallback := true |}
      else
        d <- getProp result "data" ;;
        ret {| data := d; error := VNull; usedFallback := false |})
     (fun exn =>
        warn "Supabase query exception:" exn ;;
        ret {| data := fallbackData; error := exn; usedFallback := true |}))%action.

End Query.

(** ** The search page's in-memory filters ([fetchPlaygrounds]) *)

Module Search.

(** The columns of a [playgrounds] row the filters read. *)
Record playground : Type := {
  id : Z;
  name : string;
  description : string;
  city : string;
  postcode : string;
  google_rating : option number;
  features : option (list string);
  opening_hours : option (list (string * string))
}.

(** [s.includes(search)] *)
Fixpoint includes (s search : string) : bool :=
  String.prefix search s ||
  match s with
  | EmptyString => false
  | String _ t => includes t search
  end.

(** [s.split(sep)] for a one-character separator. *)
Fixpoint split (sep : ascii) (s : string) : list string :=
  match s with
  | EmptyString => [EmptyString]
  | String c t =>
      if Ascii.eqb c sep then EmptyString :: split sep t
      else match split sep t with
           | h :: r => String c h :: r
           | [] => [String c EmptyString]
           end
  end.

(** [hours[day]] *)
Definition lookupDay (hours : list (string * string)) (day : string) : option string :=
  option_map snd (List.find (fun kv => String.eqb kv.1 day) hours).

(** What the search runs with: the URL parameters, the filter panel's
    selections and the weekday. *)
Record query : Type := {
  keyword : string;
  location : string;
  category : string;
  selectedFeatures : list string;
  selectedRatings : list number;
  openToday : bool;
  currentDay : string
}.

Section Host.

(** [String.prototype.toLowerCase], [String.prototype.trim] and [Number]
    applied to a string belong to the host; the filters are written over
    them. *)
Variable toLowerCase : string -> string.
Variable trim : string -> string.
Variable Number : string -> number.

(** The callback of the [late] category: does this day's range close at
    18 or later? *)
Definition closesLate (timeRange : string) : bool :=
  if String.eqb timeRange "" then false
  else
    match option_map trim (nth_error (split "-" timeRange) 1) with
    | None => false
    | Some closingTime =>
        if String.eqb closingTime "" then false
        else
          match List.map Number (split ":" closingTime) with
          | hour :: _ => num_ge hour (Fin 18)
          | [] => false
          end
    end.

(** The callback of the category filter (the [switch]). *)
Definition matchesCategory (category : string) (p : playground) : bool :=
  let features := List.map toLowerCase (default [] (features p)) in
  if String.eqb category "toddler" then
    existsb (fun f => includes f "toddler" || includes f "baby" ||
                      includes f "0-2" || includes f "under 3") features
  else if String.eqb category "party" then
    existsb (fun f => includes f "party" || includes f "celebration" ||
                      includes f "events") features
  else if String.eqb category "cafe" then
    existsb (fun f => includes f "café" || includes f "cafe" ||
                      includes f "food" || includes f "refreshments") features
  else if String.eqb category "parking" then
    existsb (fun f => includes f "free parking" || includes f "parking" ||
                      includes f "car park") features
  else if String.eqb category "late" then
    match opening_hours p with
    | None => false
    | Some hours => existsb closesLate (List.map snd hours)
    end
  else true.

(** The callback of the features filter. *)
Definition hasSelectedFeatures (selected : list string) (p : playground) : bool :=
  forallb
    (fun feature =>
       match features p with
       | None => false
       | Some fs => existsb (fun f => includes (toLowerCase f) (toLowerCase feature)) fs
       end)
    selected.

(** The callback of the rating filter. *)
Definition ratedAtLeast (minRating : number) (p : playground) : bool :=
  match google_rating p with
  | None => false
  | Some r => num_truthy r && num_ge r minRating
  end.

(** The callback of the open-today filter. *)
Definition opensOn (day : string) (p : playground) : bool :=
  match opening_hours p with
  | None => false
  | Some hours =>
      match lookupDay hours day with
      | None => false
      | Some range => negb (String.eqb range "") && (0 <? String.length range)%nat
      end
  end.

(** The steps, each behind its guard. *)
Definition keywordStep (q : query) (data : list playground) : list playground :=
  if String.eqb (keyword q) "" then data
  else
    let keywordLower := toLowerCase (keyword q) in
    List.filter (fun p => includes (toLowerCase (name p)) keywordLower ||
                          includes (toLowerCase (description p)) keywordLower) data.

Definition locationStep (q : query) (data : list playground) : list playground :=
  if String.eqb (location q) "" then data
  else
    let locationLower := toLowerCase (location q) in
    List.filter (fun p => includes (toLowerCase (city p)) locationLower ||
                          includes (toLowerCase (postcode p)) locationLower) data.

Definition categoryStep (q : query) (data : list playground) : list playground :=
  if String.eqb (category q) "" then data
  else List.filter (matchesCategory (category q)) data.

Definition featureStep (q : query) (data : list playground) : list playground :=
  if (0 <? List.length (selectedFeatures q))%nat
  then List.filter (hasSelectedFeatures (selectedFeatures q)) data
  else data.

Definition ratingStep (q : query) (data : list playground) : list playground :=
  if (0 <? List.length (selectedRatings q))%nat
  then
    let minRating := Math_min (selectedRatings q) in
    List.filter (ratedAtLeast minRating) data
  else data.

Definition openTodayStep (q : query) (data : list playground) : list playground :=
  if openToday q then List.filter (opensOn (currentDay q)) data else data.

(** The [try] branch: the rows the remote query returned (it has applied
    keyword and location itself). *)
Definition filterRows (q : query) (data : option (list playground)) : list playground :=
  let filteredData := default [] data in
  let filteredData :=
    if negb (String.eqb (category q) "") && (0 <? List.length filteredData)%nat
    then List.filter (matchesCategory (category q)) filteredData
    else filteredData in
  openTodayStep q (ratingStep q (featureStep q filteredData)).

(** The [catch] branch: the same chain over the bundled rows. *)
Definition filterMock (q : query) (mockData : list playground) : list playground :=
  openTodayStep q (ratingStep q (featureStep q
    (categoryStep q (locationStep q (keywordStep q mockData))))).

End Host.

(** [mockPlaygrounds], with the columns above. *)
Definition week (mon tue wed thu fri sat sun : string) : list (string * string) :=
  [("Monday", mon); ("Tuesday", tue); ("Wednesday", wed); ("Thursday", thu);
   ("Friday", fri); ("Saturday", sat); ("Sunday", sun)]%string.

Definition mockPlaygrounds : list playground :=
  [ {| id := 1; name := "Funky Monkeys Play Centre";
       description := "Vibrant indoor play centre with multi-level soft play structure.";
       city := "London"; postcode := "E1 6AN";
       google_rating := Some (Fin (47 # 10));
       features := Some ["Soft Play"; "Ball Pit"; "Café"; "Party Rooms"]%string;
       opening_hours := Some (week "9:00-18:00" "9:00-18:00" "9:00-18:00" "9:00-18:00"
                                   "9:00-19:00" "9:00-19:00" "10:00-18:00") |};
    {| id := 2; name := "Adventure World";
       description := "Exciting indoor playground with climbing walls and tube slides.";
       city := "Manchester"; postcode := "M4 1HQ";
       google_rating := Some (Fin (45 # 10));
       features := Some ["Climbing Walls"; "Slides"; "Gaming Zone"; "Café"]%string;
       opening_hours := Some (week "10:00-18:00" "10:00-18:00" "10:00-18:00" "10:00-18:00"
                                   "10:00-20:00" "9:00-20:00" "10:00-18:00") |};
    {| id := 3; name := "Jungle Jims";
       description := "Jungle-themed indoor play centre with slides and rope bridges.";
       city := "Birmingham"; postcode := "B2 5DP";
       google_rating := Some (Fin (43 # 10));
       features := Some ["Soft Play"; "Ball Cannons"; "Rope Bridges"; "Café"]%string;
       opening_hours := Some (week "9:30-17:30" "9:30-17:30" "9:30-17:30" "9:30-17:30"
                                   "9:30-18:30" "9:00-18:30" "10:00-17:30") |} ].

(** The thresholds the filter panel offers. *)
Definition ratingOptions : list number :=
  [Fin (45 # 10); Fin 4; Fin (35 # 10); Fin 3].

(** What the awaited remote query gives: it throws, or it answers
    [{ data, error }]. *)
Inductive remote : Type :=
  | RemoteThrows (e : value)
  | RemoteAnswers (data : option (list playground)) (error : value).

(** [fetchPlaygrounds]: the rows to show and the [useMockData] flag. *)
Definition fetchPlaygrounds (toLowerCase trim : string -> string) (Number : string -> number)
    (q : query) (r : remote) : list playground * bool :=
  match r with
  | RemoteAnswers data error =>
      if truthy error then (filterMock toLowerCase trim Number q mockPlaygrounds, true)
      else (filterRows toLowerCase trim Number q data, false)
  | RemoteThrows _ => (filterMock toLowerCase trim Number q mockPlaygrounds, true)
  end.

(** The same search with other rating boxes ticked. *)
Definition withRatings (rs : list number) (q : query) : query :=
  {| keyword := keyword q; location := location q; category := category q;
     selectedFeatures := selectedFeatures q; selectedRatings := rs;
     openToday := openToday q; currentDay := currentDay q |}.

(** Searches and rows to try the filters on. *)
Definition anySearch : query :=
  {| keyword := ""; location := ""; category := ""; selectedFeatures := [];
     selectedRatings := []; openToday := false; currentDay := "Monday" |}.

Definition withFeatures (fs : list string) (q : query) : query :=
  {| keyword := keyword q; location := location q; category := category q;
     selectedFeatures := fs; selectedRatings := selectedRatings q;
     openToday := openToday q; currentDay := currentDay q |}.

Definition withCategory (c : string) (q : query) : query :=
  {| keyword := keyword q; location := location q; category := c;
     selectedFeatures := selectedFeatures q; selectedRatings := selectedRatings q;
     openToday := openToday q; currentDay := currentDay q |}.

Definition listing (i : Z) (rating : option number) (tags : option (list string))
    (hours : option (list (string * string))) : playground :=
  {| id := i; name := "Listing"; description := ""; city := ""; postcode := "";
     google_rating := rating; features := tags; opening_hours := hours |}.

(** *** What the specification's words mean *)

(** [s] matches [tag] as a substring, case ignored. *)
Definition matchesTag (toLowerCase : string -> string) (s tag : string) : Prop :=
  exists pre post, toLowerCase tag = pre +:+ toLowerCase s +:+ post.

Fixpoint allChars (P : ascii -> bool) (s : string) : bool :=
  match s with
  | EmptyString => true
  | String c t => P c && allChars P t
  end.

Definition isDigit (c : ascii) : bool :=
  (48 <=? nat_of_ascii c)%nat && (nat_of_ascii c <=? 57)%nat.

(** The value of a non-empty string of decimal digits. *)
Fixpoint decimalFrom (acc : Z) (s : string) : option Z :=
  match s with
  | EmptyString => Some acc
  | String c t =>
      if isDigit c then decimalFrom (10 * acc + (Z.of_nat (nat_of_ascii c) - 48)) t
      else None
  end.

Definition decimal (s : string) : option Z :=
  match s with
  | EmptyString => None
  | _ => decimalFrom 0 s
  end.

(** [range] is an "HH:MM-HH:MM" string whose closing hour is [h]. *)
Definition closesAt (range : string) (h : Z) : Prop :=
  exists oh om ch cm : string,
    is_Some (decimal oh) /\ is_Some (decimal om) /\ decimal ch = Some h /\
    is_Some (decimal cm) /\
    range = oh +:+ ":" +:+ om +:+ "-" +:+ ch +:+ ":" +:+ cm.

(** *** What the filters rely on from the host *)

(** A visible ASCII character: not a blank of any kind. *)
Definition isGraph (c : ascii) : bool :=
  (33 <=? nat_of_ascii c)%nat && (nat_of_ascii c <=? 126)%nat.

(** [trim] leaves a string without blanks alone. *)
Definition trimSpec (trim : string -> string) : Prop :=
  forall s, allChars isGraph s = true -> trim s = s.

(** [Number] reads a string of decimal digits as its value. *)
Definition NumberSpec (Number : string -> number) : Prop :=
  forall s n, decimal s = Some n -> Number s = Fin (inject_Z n).

(** *** A host for ASCII text, to run the filters on examples *)

Definition isBlank (c : ascii) : bool :=
  (nat_of_ascii c =? 32)%nat || ((9 <=? nat_of_ascii c)%nat && (nat_of_ascii c <=? 13)%nat).

Definition lowerChar (c : ascii) : ascii :=
  if (65 <=? nat_of_ascii c)%nat && (nat_of_ascii c <=? 90)%nat
  then ascii_of_nat (nat_of_ascii c + 32)
  else c.

Fixpoint asciiLower (s : string) : string :=
  match s with
  | EmptyString => EmptyString
  | String c t => String (lowerChar c) (asciiLower t)
  end.

Fixpoint trimStart (s : string) : string :=
  match s with
  | EmptyString => EmptyString
  | String c t => if isBlank c then trimStart t else s
  end.

Fixpoint trimEnd (s : string) : string :=
  match s with
  | EmptyString => EmptyString
  | String c t =>
      match trimEnd t with
      | EmptyString => if isBlank c then EmptyString else String c EmptyString
      | t' => String c t'
      end
  end.

Definition asciiTrim (s : string) : string := trimEnd (trimStart s).

(** Digits only; every other form of numeric literal is left out of this
    host and reads as [NaN], except the empty string, which is 0. *)
Definition decimalNumber (s : string) : number :=
  match decimal (asciiTrim s) with
  | Some n => Fin (inject_Z n)
  | None => if String.eqb (asciiTrim s) "" then Fin 0 else NaN
  end.

End Search.

(** ** The filter panel, the result views and the slugs of the search page *)

Module Page.
Import Search.

(** [a === b] on numbers. *)
Definition strictEq (a b : number) : bool :=
  match a, b with
  | Fin x, Fin y => Qeq_bool x y
  | PosInf, PosInf | NegInf, NegInf => true
  | _, _ => false
  end.

(** The comparison of [Array.prototype.includes]: as [===], but [NaN] is
    found. *)
Definition sameValueZero (a b : number) : bool :=
  match a, b with
  | NaN, NaN => true
  | _, _ => strictEq a b
  end.

(** [selectedFeatures.includes(feature)]: the state of a feature box. *)
Definition featureChecked (selected : list string) (feature : string) : bool :=
  existsb (fun f => String.eqb f feature) selected.

(** [selectedRatings.includes(rating)]: the state of a rating box. *)
Definition ratingChecked (selected : list number) (rating : number) : bool :=
  existsb (fun r => sameValueZero r rating) selected.

Definition toggleFeature (prev : list string) (feature : string) : list string :=
  if featureChecked prev feature
  then List.filter (fun f => negb (String.eqb f feature)) prev
  else prev ++ [feature].

Definition toggleRating (prev : list number) (rating : number) : list number :=
  if ratingChecked prev rating
  then List.filter (fun r => negb (strictEq r rating)) prev
  else prev ++ [rating].

(** The selections of rating boxes a visitor can reach: none at first and
    after "Clear all filters", then one box of the panel toggled at a
    time. *)
Inductive reachableRatings : list number -> Prop :=
  | ratings_cleared : reachableRatings []
  | ratings_toggled selected rating :
      reachableRatings selected -> In rating ratingOptions ->
      reachableRatings (toggleRating selected rating).

(** The classes of the two regular expressions of [generateSlug], over
    ASCII text: [\w], [\s] and the hyphen. *)
Definition isWord (c : ascii) : bool :=
  let n := nat_of_ascii c in
  ((48 <=? n) && (n <=? 57) || (65 <=? n) && (n <=? 90) ||
   (n =? 95) || (97 <=? n) && (n <=? 122))%nat.

Definition isHyphen (c : ascii) : bool := Ascii.eqb c "-".

Definition isAscii (c : ascii) : bool := (nat_of_ascii c <? 128)%nat.

(** [s.replace(/[^\w\s-]/g, '')] *)
Fixpoint dropOthers (s : string) : string :=
  match s with
  | EmptyString => EmptyString
  | String c t =>
      if isWord c || isBlank c || isHyphen c then String c (dropOthers t)
      else dropOthers t
  end.

(** [s.replace(/\s+/g, '-')]: [inRun] says that the character before was
    a blank of the run being replaced. *)
Fixpoint dashBlanks (inRun : bool) (s : string) : string :=
  match s with
  | EmptyString => EmptyString
  | String c t =>
      if isBlank c then
        if inRun then dashBlanks true t else String "-" (dashBlanks true t)
      else String c (dashBlanks false t)
  end.

Definition generateSlug (toLowerCase : string -> string) (name : string) : string :=
  dashBlanks false (dropOthers (toLowerCase name)).

(** [playground.city.toLowerCase().replace(/\s+/g, '-')] *)
Definition citySlug (toLowerCase : string -> string) (city : string) : string :=
  dashBlanks false (toLowerCase city).

(** The state of the page that the effect writes and the views read. *)
Inductive viewMode : Type := GridView | ListView | MapView.

Record page : Type := {
  playgrounds : list playground;
  loading : bool;
  error : option string;
  useMockData : bool;
  view : viewMode
}.

(** The state once the effect [fetchPlaygrounds] has run to its end: the
    [try] branch leaves the error the effect cleared at its start, the
    [catch] branch sets it, [finally] clears [loading]. *)
Definition afterFetch (toLowerCase trim : string -> string) (Number : string -> number)
    (q : query) (r : remote) (st : page) : page :=
  let '(rows, mock) := fetchPlaygrounds toLowerCase trim Number q r in
  {| playgrounds := rows;
     loading := false;
     error := if mock
              then Some "Failed to load soft play areas. Please try again later."%string
              else None;
     useMockData := mock;
     view := view st |}.

(** Which blocks the page renders. *)
Record screen : Type := {
  sampleNote : bool;
  found : nat;
  spinner : bool;
  errorAlert : bool;
  noResults : bool;
  resultsGrid : bool;
  resultsList : bool;
  resultsMap : bool
}.

Definition hasError (st : page) : bool :=
  match error st with
  | Some msg => negb (String.eqb msg "")
  | None => false
  end.

Definition render (st : page) : screen :=
  let ready := negb (loading st) && negb (hasError st) in
  let some := (0 <? List.length (playgrounds st))%nat in
  {| sampleNote := useMockData st;
     found := List.length (playgrounds st);
     spinner := loading st;
     errorAlert := hasError st;
     noResults := ready && (List.length (playgrounds st) =? 0)%nat;
     resultsGrid := ready && some &&
                    match view st with GridView => true | _ => false end;
     resultsList := ready && some &&
                    match view st with ListView => true | _ => false end;
     resultsMap := ready && some &&
                   match view st with MapView => true | _ => false end |}.

(** The keywords of the four categories that look at the feature tags. *)
Definition categoryKeywords (category : string) : list string :=
  if String.eqb category "toddler" then ["toddler"; "baby"; "0-2"; "under 3"]%string
  else if String.eqb category "party" then ["party"; "celebration"; "events"]%string
  else if String.eqb category "cafe" then ["café"; "cafe"; "food"; "refreshments"]%string
  else if String.eqb category "parking" then ["free parking"; "parking"; "car park"]%string
  else [].

(** Does a row pass a filter of the search, or is that filter off? *)
Section Passes.
Variable toLowerCase trim : string -> string.
Variable Number : string -> number.

Definition keywordOk (q : query) (p : playground) : bool :=
  String.eqb (keyword q) "" ||
  (includes (toLowerCase (name p)) (toLowerCase (keyword q)) ||
   includes (toLowerCase (description p)) (toLowerCase (keyword q))).

Definition locationOk (q : query) (p : playground) : bool :=
  String.eqb (location q) "" ||
  (includes (toLowerCase (city p)) (toLowerCase (location q)) ||
   includes (toLowerCase (postcode p)) (toLowerCase (location q))).

Definition categoryOk (q : query) (p : playground) : bool :=
  String.eqb (category q) "" || matchesCategory toLowerCase trim Number (category q) p.

Definition featuresOk (q : query) (p : playground) : bool :=
  negb (0 <? List.length (selectedFeatures q))%nat ||
  hasSelectedFeatures toLowerCase (selectedFeatures q) p.

Definition ratingsOk (q : query) (p : playground) : bool :=
  negb (0 <? List.length (selectedRatings q))%nat ||
  ratedAtLeast (Math_min (selectedRatings q)) p.

Definition openOk (q : query) (p : playground) : bool :=
  negb (openToday q) || opensOn (currentDay q) p.

(** Does a row pass every filter of the search that is switched on? *)
Definition passes (q : query) (p : playground) : bool :=
  keywordOk q p && locationOk q p && categoryOk q p &&
  featuresOk q p && ratingsOk q p && openOk q p.

End Passes.

Definition withKeyword (k : string) (q : query) : query :=
  {| keyword := k; location := location q; category := category q;
     selectedFeatures := selectedFeatures q; selectedRatings := selectedRatings q;
     openToday := openToday q; currentDay := currentDay q |}.

End Page.

(** ** The cookie banner *)

Module Consent.











End Consent.

(** * Properties *)

(** ** The cache *)

Section CacheFacts.
Import Cache.

Ltac run_cache :=
  unfold fetchWithCache, bind, tryCatch, cache_get, cache_set, Date_now,
    invoke, gets, modify, warn, ret, throw; simpl.

(** The four ways a call can go. *)
Lemma fetchWithCache_hit key f ttl w e :
  cache w !! key = Some e -> (timestamp e >? now w - ttl) = true ->
  fetchWithCache key f ttl w = (Returned (data e), w, []).
Proof. intros He Hf. run_cache. rewrite He, Hf. reflexivity. Qed.

Lemma fetchWithCache_stored key f ttl w d w1 :
  fresh key ttl w = false -> f w = (Returned d, w1) ->
  fetchWithCache key f ttl w =
    (Returned d,
     {| cache := <[key := {| data := d; timestamp := now w1 |}]> (cache w1);
        now := now w1 |},
     [EvFetch]).
Proof.
  unfold fresh. intros Hs Hf. run_cache.
  destruct (cache w !! key) as [e|]; [rewrite Hs|]; rewrite Hf; reflexivity.
Qed.

Lemma fetchWithCache_failed key f ttl w err w1 :
  fresh key ttl w = false -> f w = (Thrown err, w1) ->
  fetchWithCache key f ttl w =
    (match cache w !! key with
     | Some e => Returned (data e)
     | None => Thrown err
     end,
     w1,
     [EvFetch; EvWarn ("Cache fetch error for key " +:+ key +:+ ":") err]).
Proof.
  unfold fresh. intros Hs Hf. run_cache.
  destruct (cache w !! key) as [e|]; [rewrite Hs|]; rewrite Hf; reflexivity.
Qed.

Lemma fetchWithCache_hangs key f ttl w w1 :
  fresh key ttl w = false -> f w = (Hangs, w1) ->
  fetchWithCache key f ttl w = (Hangs, w1, [EvFetch]).
Proof.
  unfold fresh. intros Hs Hf. run_cache.
  destruct (cache w !! key) as [e|]; [rewrite Hs|]; rewrite Hf; reflexivity.
Qed.

Lemma fetchWithCache_fresh key f ttl w :
  fresh key ttl w = true ->
  exists e, cache w !! key = Some e /\
            fetchWithCache key f ttl w = (Returned (data e), w, []).
Proof.
  unfold fresh. intros Hf. destruct (cache w !! key) as [e|] eqn:He; [|discriminate].
  exists e. split; [reflexivity|]. now apply fetchWithCache_hit.
Qed.

(** One call invokes the fetcher at most once. *)
Lemma fetchWithCache_fetches_le key f ttl w :
  (fetches (fetchWithCache key f ttl w).2 <= 1)%nat.
Proof.
  destruct (fresh key ttl w) eqn:Hfr.
  - destruct (fetchWithCache_fresh key f ttl w Hfr) as (e & _ & ->). cbv [fetches]; simpl; lia.
  - destruct (f w) as [[d|err|] w1] eqn:Hf.
    + rewrite (fetchWithCache_stored _ _ _ _ _ _ Hfr Hf). cbv [fetches]; simpl; lia.
    + rewrite (fetchWithCache_failed _ _ _ _ _ _ Hfr Hf). cbv [fetches]; simpl; lia.
    + rewrite (fetchWithCache_hangs _ _ _ _ _ Hfr Hf). cbv [fetches]; simpl; lia.
Qed.

(** C1. Two calls for the same key, the second made less than [ttl]
    milliseconds after the first completed without a fetch error, invoke
    the fetcher at most once between them; and when the first call did
    fetch, the second finds the entry it stored fresh and returns that
    payload without invoking the fetcher or touching the cache. *)
Theorem fetchWithCache_twice_within_ttl key f ttl w v w1 l1 t2 :
  fetchWithCache key f ttl w = (Returned v, w1, l1) ->
  warnings l1 = [] ->
  t2 - now w1 < ttl ->
  let second := fetchWithCache key f ttl (setNow t2 w1) in
  (fetches (l1 ++ second.2) <= 1)%nat /\
  (fetches l1 = 1%nat ->
   fresh key ttl (setNow t2 w1) = true /\
   second = (Returned v, setNow t2 w1, [])).
Proof.
  intros Hfirst Hok Hsoon second.
  destruct (fresh key ttl w) eqn:Hfr.
  - destruct (fetchWithCache_fresh key f ttl w Hfr) as (e & _ & Hhit).
    rewrite Hhit in Hfirst. injection Hfirst as <- <- <-. simpl.
    split; [apply fetchWithCache_fetches_le | discriminate].
  - destruct (f w) as [[d|err|] w0] eqn:Hf.
    + rewrite (fetchWithCache_stored _ _ _ _ _ _ Hfr Hf) in Hfirst.
      injection Hfirst as <- <- <-.
      set (e := {| data := d; timestamp := now w0 |}).
      assert (Hlook : cache (setNow t2 {| cache := <[key:=e]> (cache w0); now := now w0 |})
                        !! key = Some e) by (simpl; apply lookup_insert_eq).
      assert (Hnew : (timestamp e >?
                      now (setNow t2 {| cache := <[key:=e]> (cache w0); now := now w0 |}) - ttl)
                     = true) by (simpl in *; lia).
      assert (Hsecond : second = (Returned d, setNow t2 {| cache := <[key:=e]> (cache w0);
                                                          now := now w0 |}, []))
        by (exact (fetchWithCache_hit _ f ttl _ e Hlook Hnew)).
      rewrite Hsecond. split; [cbv [fetches]; simpl; lia|].
      intros _. split; [|reflexivity].
      unfold fresh. rewrite Hlook. exact Hnew.
    + rewrite (fetchWithCache_failed _ _ _ _ _ _ Hfr Hf) in Hfirst.
      injection Hfirst as _ _ <-. discriminate Hok.
    + rewrite (fetchWithCache_hangs _ _ _ _ _ Hfr Hf) in Hfirst. discriminate Hfirst.
Qed.

Lemma fetchWithCache_twice_within_ttl_witness :
  let w1 := {| cache := {[ "venues"%string := {| data := VStr "rows"; timestamp := 1120 |} ]};
               now := 1120 |} in
  (fetches ([EvFetch] ++
            (fetchWithCache "venues" (resolvesWith (VStr "rows") 120) 60000
               (setNow 61119 w1)).2) <= 1)%nat /\
  (fetches [EvFetch] = 1%nat ->
   fresh "venues" 60000 (setNow 61119 w1) = true /\
   fetchWithCache "venues" (resolvesWith (VStr "rows") 120) 60000 (setNow 61119 w1)
   = (Returned (VStr "rows"), setNow 61119 w1, [])).
Proof.
  exact (fetchWithCache_twice_within_ttl "venues" (resolvesWith (VStr "rows") 120) 60000
           {| cache := ∅; now := 1000 |} (VStr "rows") _ [EvFetch] 61119
           eq_refl eq_refl eq_refl).
Defined.

(** C2. When the fetcher fails, a call for a key that has an entry, fresh
    or stale, returns that entry's payload and does not raise; a call for
    a key without an entry raises the fetcher's error. *)
Theorem fetchWithCache_fetcher_fails key f ttl w err w1 :
  f w = (Thrown err, w1) ->
  (forall e, cache w !! key = Some e ->
             (fetchWithCache key f ttl w).1.1 = Returned (data e)) /\
  (cache w !! key = None ->
   (fetchWithCache key f ttl w).1.1 = Thrown err).
Proof.
  intros Hf. split.
  - intros e He. destruct (fresh key ttl w) eqn:Hfr.
    + destruct (fetchWithCache_fresh key f ttl w Hfr) as (e' & He' & ->).
      simpl. congruence.
    + rewrite (fetchWithCache_failed _ _ _ _ _ _ Hfr Hf), He. reflexivity.
  - intros Hnone.
    assert (Hfr : fresh key ttl w = false) by (unfold fresh; now rewrite Hnone).
    rewrite (fetchWithCache_failed _ _ _ _ _ _ Hfr Hf), Hnone. reflexivity.
Qed.

Lemma fetchWithCache_fetcher_fails_witness :
  let w := {| cache := {[ "venues"%string := {| data := VStr "old rows"; timestamp := 0 |} ]};
              now := 100000 |} in
  let f := rejectsWith (mkError "Error" "offline") 30 in
  (forall e, cache w !! "venues"%string = Some e ->
             (fetchWithCache "venues" f 60000 w).1.1 = Returned (data e)) /\
  (cache w !! "cities"%string = None ->
   (fetchWithCache "cities" f 60000 w).1.1 = Thrown (mkError "Error" "offline")).
Proof.
  intros w f. split.
  - exact (proj1 (fetchWithCache_fetcher_fails "venues" f 60000 w _ _ eq_refl)).
  - exact (proj2 (fetchWithCache_fetcher_fails "cities" f 60000 w _ _ eq_refl)).
Defined.

(** C9. When the fetcher fails, the call itself writes nothing: the world
    it leaves is the one it was given (a fresh entry was served) or the
    one the fetcher left; so if the fetcher did not touch the cache, every
    key has after the call the entry, or the absence of one, it had
    before. *)
Theorem fetchWithCache_failure_leaves_cache key f ttl w err w1 :
  f w = (Thrown err, w1) ->
  (fetchWithCache key f ttl w).1.2 = (if fresh key ttl w then w else w1) /\
  (cache w1 = cache w ->
   cache (fetchWithCache key f ttl w).1.2 = cache w /\
   forall k, cache (fetchWithCache key f ttl w).1.2 !! k = cache w !! k).
Proof.
  intros Hf.
  assert (Hw : (fetchWithCache key f ttl w).1.2 = (if fresh key ttl w then w else w1)).
  { destruct (fresh key ttl w) eqn:Hfr.
    - now destruct (fetchWithCache_fresh key f ttl w Hfr) as (e & _ & ->).
    - now rewrite (fetchWithCache_failed _ _ _ _ _ _ Hfr Hf). }
  split; [exact Hw|].
  intros Hsame. rewrite Hw.
  assert (Hc : cache (if fresh key ttl w then w else w1) = cache w)
    by (destruct (fresh key ttl w); [reflexivity | exact Hsame]).
  split; [exact Hc | intros k; now rewrite Hc].
Qed.

Lemma fetchWithCache_failure_leaves_cache_witness :
  let w := {| cache := {[ "venues"%string := {| data := VStr "old rows"; timestamp := 0 |} ]};
              now := 100000 |} in
  let f := rejectsWith (mkError "Error" "offline") 30 in
  cache (fetchWithCache "cities" f 60000 w).1.2 = cache w /\
  forall k, cache (fetchWithCache "cities" f 60000 w).1.2 !! k = cache w !! k.
Proof.
  intros w f.
  exact (proj2 (fetchWithCache_failure_leaves_cache "cities" f 60000 w _ _ eq_refl) eq_refl).
Defined.

End CacheFacts.

(** ** The timeout race and the custom fetch *)

Section TimerFacts.
Import Timers.

Ltac run_timers :=
  unfold fetchWithTimeout, supabaseFetch, bind, tryCatch, setTimeout, clearTimeout,
    call, awaitRace, gets, modify, warn, ret, throw; simpl.

(** [fetchWithTimeout], case by case. *)
Lemma fetchWithTimeout_cases tie fetcher timeout fallback l :
  let due := clock l + Z.max 0 timeout in
  let timedOut :=
    (Returned fallback, fireTimer (nextTimer l) due (armed timeout l),
     [EvFetch; EvWarn "Fetch error:" (mkError "Error" "Request timed out")]) in
  fetchWithTimeout tie fetcher timeout fallback l =
    match fetcher with
    | Throws e => (Returned fallback, armed timeout l, [EvFetch; EvWarn "Fetch error:" e])
    | Starts (ResolvesAfter d v) =>
        match first tie (clock l + d) due with
        | Operation => (Returned v, passTime (clock l + d) (armed timeout l), [EvFetch])
        | Timer => timedOut
        end
    | Starts (RejectsAfter d e) =>
        match first tie (clock l + d) due with
        | Operation => (Returned fallback, passTime (clock l + d) (armed timeout l),
                        [EvFetch; EvWarn "Fetch error:" e])
        | Timer => timedOut
        end
    | Starts NeverSettles => timedOut
    end.
Proof.
  intros due timedOut. subst due timedOut. run_timers.
  destruct fetcher as [e|[d v|d e|]]; simpl; try reflexivity;
    rewrite lookup_insert_eq; try reflexivity;
    destruct (first tie (clock l + d) (clock l + Z.max 0 timeout)); reflexivity.
Qed.

Lemma first_timer_strict tie settles due : due < settles -> first tie settles due = Timer.
Proof.
  intros H. unfold first.
  destruct (settles <? due) eqn:H1; [lia|].
  destruct (due <? settles) eqn:H2; [reflexivity | lia].
Qed.

Lemma first_operation_strict tie settles due :
  settles < due -> first tie settles due = Operation.
Proof. intros H. unfold first. destruct (settles <? due) eqn:H1; [reflexivity | lia]. Qed.

(** C3. [fetchWithTimeout] always returns, never raises and never stays
    pending; it returns the fallback when the timer fires before the
    operation settles, when the operation throws, when its promise
    rejects and when it never settles.  With a 100 ms timeout and an
    operation that resolves after 500 ms the result is the fallback
    ["X"]. *)
Theorem fetchWithTimeout_returns_fallback tie timeout fallback l :
  (forall fetcher, exists v l' evs,
     fetchWithTimeout tie fetcher timeout fallback l = (Returned v, l', evs)) /\
  (forall d v,
     first tie (clock l + d) (clock l + Z.max 0 timeout) = Timer ->
     (fetchWithTimeout tie (Starts (ResolvesAfter d v)) timeout fallback l).1.1
     = Returned fallback) /\
  (forall e,
     (fetchWithTimeout tie (Throws e) timeout fallback l).1.1 = Returned fallback) /\
  (forall d e,
     (fetchWithTimeout tie (Starts (RejectsAfter d e)) timeout fallback l).1.1
     = Returned fallback) /\
  (fetchWithTimeout tie (Starts NeverSettles) timeout fallback l).1.1 = Returned fallback /\
  (forall v,
     (fetchWithTimeout tie (Starts (ResolvesAfter 500 v)) 100 (VStr "X") l).1.1
     = Returned (VStr "X")).
Proof.
  split; [|split; [|split; [|split; [|split]]]].
  - intros fetcher. rewrite fetchWithTimeout_cases.
    destruct fetcher as [e|[d v|d e|]]; simpl;
      try destruct (first tie (clock l + d) (clock l + Z.max 0 timeout));
      eexists _, _, _; reflexivity.
  - intros d v Hfirst. rewrite fetchWithTimeout_cases. simpl. now rewrite Hfirst.
  - intros e. now rewrite fetchWithTimeout_cases.
  - intros d e. rewrite fetchWithTimeout_cases. simpl.
    now destruct (first tie (clock l + d) (clock l + Z.max 0 timeout)).
  - now rewrite fetchWithTimeout_cases.
  - intros v. rewrite fetchWithTimeout_cases. simpl.
    rewrite first_timer_strict by lia. reflexivity.
Qed.

Lemma fetchWithTimeout_returns_fallback_witness :
  (fetchWithTimeout Operation (Starts (ResolvesAfter 5000 (VStr "rows"))) 5000 VNull
     {| clock := 7; timers := ∅; nextTimer := 0 |}).1.1 = Returned (VStr "rows") /\
  (fetchWithTimeout Timer (Starts (ResolvesAfter 5000 (VStr "rows"))) 5000 VNull
     {| clock := 7; timers := ∅; nextTimer := 0 |}).1.1 = Returned VNull.
Proof.
  split; [reflexivity|].
  exact (proj1 (proj2 (fetchWithTimeout_returns_fallback Timer 5000 VNull
                         {| clock := 7; timers := ∅; nextTimer := 0 |}))
           5000 (VStr "rows") eq_refl).
Defined.


(** C4, at [fetchWithTimeout(f, 5000, null)] with [f] resolving after
    10 ms: the wrapper returns [f]'s value at 10 ms and the timer it set,
    due at 5000 ms, is still pending. *)
Theorem fetchWithTimeout_leaves_timer_pending :
  let r := fetchWithTimeout Timer (Starts (ResolvesAfter 10 (VStr "rows"))) 5000 VNull idle in
  r.1.1 = Returned (VStr "rows") /\ clock r.1.2 = 10 /\ timers r.1.2 !! 0%nat = Some 5000.
Proof.
  intros r. subst r. rewrite fetchWithTimeout_cases. simpl.
  split; [reflexivity|]. split; [reflexivity|].
  apply map_lookup_filter_Some. split; [apply lookup_insert_eq | simpl; lia].
Qed.

(** The custom fetch, in contrast, always returns a response and leaves
    no timer of its own behind, whichever of response, failure and
    timeout comes first. *)
Lemma supabaseFetch_clears_timer tie network l :
  exists response l' evs,
    supabaseFetch tie network l = (Returned response, l', evs) /\
    timers l' !! nextTimer l = None.
Proof.
  run_timers. rewrite lookup_insert_eq.
  destruct network as [d v|d e|]; simpl;
    try destruct (first _ _ _); simpl;
    eexists _, _, _; (split; [reflexivity|]); simpl; apply lookup_delete_eq.
Qed.

End TimerFacts.

(** ** The safe query wrapper *)

Section QueryFacts.
Import Query.
Context {S : Type}.

Ltac run_query :=
  unfold safeSupabaseQuery, getProp, bind, tryCatch, invoke, warn, ret, throw; simpl.

(** C5. [safeSupabaseQuery] never raises, and returns an answer whenever
    the query function settles.  When the query resolves to a result
    whose [error] is set, the answer is the fallback with that error and
    [usedFallback] true; when it resolves to a result whose [error] is
    not set, the answer is the result's [data] with a null error and
    [usedFallback] false; when it raises, the answer is the fallback with
    the exception and [usedFallback] true. *)
Theorem safeSupabaseQuery_answers (queryFn : effect S value) (fallbackData : value) (s : S) :
  let outcome := (safeSupabaseQuery queryFn fallbackData s).1.1 in
  (forall e, outcome <> Thrown e) /\
  ((queryFn s).1 <> Hangs -> exists a, outcome = Returned a) /\
  (forall result s1,
     queryFn s = (Returned result, s1) -> nullish result = false ->
     truthy (field result "error") = true ->
     outcome = Returned {| data := fallbackData; error := field result "error";
                           usedFallback := true |}) /\
  (forall result s1,
     queryFn s = (Returned result, s1) -> nullish result = false ->
     truthy (field result "error") = false ->
     outcome = Returned {| data := field result "data"; error := VNull;
                           usedFallback := false |}) /\
  (forall exn s1,
     queryFn s = (Thrown exn, s1) ->
     outcome = Returned {| data := fallbackData; error := exn; usedFallback := true |}).
Proof.
  intros outcome. subst outcome. run_query.
  destruct (queryFn s) as [[result|exn|] s1] eqn:Hq; simpl.
  - destruct (nullish result) eqn:Hn; simpl.
    + split; [discriminate|]. split; [eauto|].
      split; [|split]; intros ? ? Heq; try discriminate Heq;
        injection Heq as <- <-; congruence.
    + destruct (truthy (field result "error")) eqn:Ht; simpl;
        (split; [discriminate|]); (split; [eauto|]);
        (split; [|split]); intros ? ? Heq; try discriminate Heq;
        injection Heq as <- <-; intros; congruence.
  - split; [discriminate|]. split; [eauto|].
    split; [|split]; intros ? ? Heq; try discriminate Heq.
    injection Heq as <- <-. reflexivity.
  - split; [discriminate|]. split; [intros H; now contradiction H|].
    split; [|split]; intros ? ? Heq; discriminate Heq.
Qed.

(** A query that resolves to [null] or [undefined] is answered like one
    that raised: reading [result.error] throws inside the [try]. *)
Lemma safeSupabaseQuery_nullish (queryFn : effect S value) fallbackData s result s1 :
  queryFn s = (Returned result, s1) -> nullish result = true ->
  (safeSupabaseQuery queryFn fallbackData s).1.1 =
  Returned {| data := fallbackData;
              error := mkError "TypeError" "Cannot read properties of null or undefined";
              usedFallback := true |}.
Proof. intros Hq Hn. run_query. rewrite Hq. simpl. rewrite Hn. reflexivity. Qed.

End QueryFacts.

Lemma safeSupabaseQuery_answers_witness :
  let rows := VObj [("data"%string, VStr "rows"); ("error"%string, VNull)] in
  let failed := VObj [("data"%string, VNull); ("error"%string, VStr "permission denied")] in
  (Query.safeSupabaseQuery (fun s : unit => (Returned failed, s)) (VStr "mock") tt).1.1
  = Returned {| Query.data := VStr "mock"; Query.error := VStr "permission denied";
                Query.usedFallback := true |} /\
  (Query.safeSupabaseQuery (fun s : unit => (Returned rows, s)) (VStr "mock") tt).1.1
  = Returned {| Query.data := VStr "rows"; Query.error := VNull;
                Query.usedFallback := false |} /\
  (Query.safeSupabaseQuery (fun s : unit => (Thrown (VStr "offline"), s)) (VStr "mock") tt).1.1
  = Returned {| Query.data := VStr "mock"; Query.error := VStr "offline";
                Query.usedFallback := true |}.
Proof.
  intros rows failed. split; [|split].
  - exact (proj1 (proj2 (proj2 (safeSupabaseQuery_answers
             (fun s : unit => (Returned failed, s)) (VStr "mock") tt)))
             failed tt eq_refl eq_refl eq_refl).
  - exact (proj1 (proj2 (proj2 (proj2 (safeSupabaseQuery_answers
             (fun s : unit => (Returned rows, s)) (VStr "mock") tt))))
             rows tt eq_refl eq_refl eq_refl).
  - exact (proj2 (proj2 (proj2 (proj2 (safeSupabaseQuery_answers
             (fun s : unit => (Thrown (VStr "offline"), s)) (VStr "mock") tt))))
             (VStr "offline") tt eq_refl).
Defined.

(** ** The filters *)

Section StringFacts.
Import Search.

Lemma append_nil (b : string) : EmptyString +:+ b = b.
Proof. reflexivity. Qed.

Lemma append_cons x (a b : string) : String x a +:+ b = String x (a +:+ b).
Proof. reflexivity. Qed.

Ltac unfold_append := rewrite ?append_cons, ?append_nil in *.

Lemma append_assoc (a b c : string) : (a +:+ b) +:+ c = a +:+ (b +:+ c).
Proof. induction a as [|x a IH]; unfold_append; [reflexivity | now rewrite IH]. Qed.

Lemma prefix_spec (a s : string) :
  String.prefix a s = true <-> exists post, s = a +:+ post.
Proof.
  revert s. induction a as [|x a IH]; intros s.
  - split; [intros _; now exists s | intros _; now destruct s].
  - destruct s as [|y s]; simpl; [split; [discriminate | intros [post H]; discriminate H]|].
    destruct (ascii_dec x y) as [->|Hne].
    + rewrite IH. split; intros [post H]; exists post; unfold_append;
        [now rewrite H | now injection H].
    + split; [discriminate | intros [post H]; unfold_append; injection H as H1 H2; congruence].
Qed.

Lemma includes_spec (s sub : string) :
  includes s sub = true <-> exists pre post, s = pre +:+ sub +:+ post.
Proof.
  induction s as [|c s IH]; cbn [includes].
  - rewrite orb_false_r, prefix_spec. split.
    + intros [post H]. now exists EmptyString, post.
    + intros (pre & post & H). destruct pre; unfold_append; [now exists post | discriminate H].
  - rewrite orb_true_iff, prefix_spec, IH. split.
    + intros [[post H] | (pre & post & H)].
      * now exists EmptyString, post.
      * exists (String c pre), post. unfold_append. now rewrite H.
    + intros (pre & post & H). destruct pre as [|c' pre]; unfold_append.
      * left. now exists post.
      * right. injection H as _ H. now exists pre, post.
Qed.

Lemma allChars_app P (a b : string) :
  allChars P (a +:+ b) = allChars P a && allChars P b.
Proof.
  induction a as [|x a IH]; unfold_append; simpl; [reflexivity | now rewrite IH, andb_assoc].
Qed.

Lemma allChars_impl (P Q : ascii -> bool) (s : string) :
  (forall c, P c = true -> Q c = true) -> allChars P s = true -> allChars Q s = true.
Proof.
  intros HPQ. induction s as [|c s IH]; simpl; [reflexivity|].
  rewrite !andb_true_iff. intros [Hc Hs]. split; [now apply HPQ | now apply IH].
Qed.

Lemma split_without sep (a : string) :
  allChars (fun c => negb (Ascii.eqb c sep)) a = true -> split sep a = [a].
Proof.
  induction a as [|c a IH]; simpl; [reflexivity|].
  rewrite andb_true_iff, negb_true_iff. intros [Hc Ha].
  now rewrite Hc, (IH Ha).
Qed.

Lemma split_at sep (a b : string) :
  allChars (fun c => negb (Ascii.eqb c sep)) a = true ->
  split sep (a +:+ String sep b) = a :: split sep b.
Proof.
  induction a as [|c a IH]; unfold_append; simpl.
  - intros _. now rewrite Ascii.eqb_refl.
  - rewrite andb_true_iff, negb_true_iff. intros [Hc Ha].
    now rewrite Hc, (IH Ha).
Qed.

End StringFacts.

Section NumberFacts.

Lemma Qle_bool_false (x y : Q) : Qle_bool x y = false -> (y <= x)%Q.
Proof.
  intros H. apply Qlt_le_weak, Qnot_le_lt. intros Hle.
  apply Qle_bool_iff in Hle. congruence.
Qed.

Lemma positive_Fin (x : Q) : isPositive (Fin x) = true <-> (0 < x)%Q.
Proof.
  simpl. rewrite negb_true_iff. split.
  - intros H. apply Qnot_le_lt. intros Hle. apply Qle_bool_iff in Hle. congruence.
  - intros H. destruct (Qle_bool x 0) eqn:Hle; [|reflexivity].
    apply Qle_bool_iff in Hle. exfalso. exact (Qlt_irrefl 0 (Qlt_le_trans _ _ _ H Hle)).
Qed.

Lemma num_min_PosInf (m : number) : num_min m PosInf = m.
Proof. now destruct m. Qed.

Lemma num_min_either (a b : number) :
  isPositive a = true -> isPositive b = true -> num_min a b = a \/ num_min a b = b.
Proof.
  destruct a as [| |x|], b as [| |y|]; simpl; try discriminate; auto.
  intros _ _. destruct (Qle_bool x y); auto.
Qed.

Lemma num_ge_refl (a : number) : isPositive a = true -> num_ge a a = true.
Proof.
  destruct a as [| |x|]; simpl; try discriminate; auto.
  intros _. apply Qle_bool_iff, Qle_refl.
Qed.

Lemma num_ge_trans (a b c : number) :
  num_ge a b = true -> num_ge b c = true -> num_ge a c = true.
Proof.
  destruct a as [| |x|], b as [| |y|], c as [| |z|]; simpl; try discriminate; auto.
  rewrite !Qle_bool_iff. intros H1 H2. exact (Qle_trans _ _ _ H2 H1).
Qed.

Lemma num_min_ge_l (a b : number) :
  isPositive a = true -> isPositive b = true -> num_ge a (num_min a b) = true.
Proof.
  destruct a as [| |x|], b as [| |y|]; simpl; try discriminate; auto; intros _ _.
  - destruct (Qle_bool x y) eqn:Hxy; simpl; apply Qle_bool_iff;
      [apply Qle_refl | now apply Qle_bool_false].
  - apply Qle_bool_iff, Qle_refl.
Qed.

Lemma num_min_ge_r (a b : number) :
  isPositive a = true -> isPositive b = true -> num_ge b (num_min a b) = true.
Proof.
  destruct a as [| |x|], b as [| |y|]; simpl; try discriminate; auto; intros _ _.
  - destruct (Qle_bool x y) eqn:Hxy; simpl; [exact Hxy | apply Qle_bool_iff, Qle_refl].
  - apply Qle_bool_iff, Qle_refl.
Qed.

Lemma Math_min_positive (rs : list number) :
  forallb isPositive rs = true -> isPositive (Math_min rs) = true.
Proof.
  induction rs as [|r rs IH]; simpl; [reflexivity|].
  rewrite andb_true_iff. intros [Hr Hrs].
  destruct (num_min_either r (Math_min rs) Hr (IH Hrs)) as [-> | ->]; auto.
Qed.

(** Over positive thresholds [Math.min] is the least of them. *)
Lemma Math_min_least (rs : list number) :
  rs <> [] -> forallb isPositive rs = true ->
  In (Math_min rs) rs /\ Forall (fun r => num_ge r (Math_min rs) = true) rs.
Proof.
  induction rs as [|r rs IH]; [congruence|]. intros _. simpl.
  rewrite andb_true_iff. intros [Hr Hrs].
  pose proof (Math_min_positive rs Hrs) as Hm.
  split.
  - destruct (num_min_either r (Math_min rs) Hr Hm) as [-> | Heq]; [now left|].
    destruct rs as [|r' rs']; [simpl; rewrite num_min_PosInf; now left|].
    rewrite Heq. right. apply IH; [discriminate | exact Hrs].
  - constructor; [now apply num_min_ge_l|].
    destruct rs as [|r' rs']; [constructor|].
    destruct IH as [_ IH]; [discriminate | exact Hrs |].
    eapply Forall_impl; [exact IH|]. simpl. intros a Ha.
    eapply num_ge_trans; [exact Ha | now apply num_min_ge_r].
Qed.

(** At or above a positive threshold a rating is truthy. *)
Lemma num_ge_positive_truthy (r m : number) :
  isPositive m = true -> num_ge r m = true -> num_truthy r = true.
Proof.
  destruct r as [| |y|], m as [| |x|]; simpl; try discriminate; auto.
  intros Hx Hxy. apply (positive_Fin x) in Hx. apply Qle_bool_iff in Hxy.
  apply negb_true_iff. destruct (Qeq_bool y 0) eqn:Hy; [|reflexivity].
  apply Qeq_bool_iff in Hy. rewrite Hy in Hxy.
  exfalso. exact (Qlt_irrefl 0 (Qlt_le_trans _ _ _ Hx Hxy)).
Qed.

End NumberFacts.

Section FilterFacts.
Import Search.

Lemma nonempty_guard {A} (l : list A) : l <> [] -> (0 <? List.length l)%nat = true.
Proof. destruct l; [congruence | reflexivity]. Qed.

Lemma ratingStep_filter q data :
  selectedRatings q <> [] ->
  ratingStep q data = List.filter (ratedAtLeast (Math_min (selectedRatings q))) data.
Proof. intros Hne. unfold ratingStep. now rewrite (nonempty_guard _ Hne). Qed.

Lemma ratedAtLeast_spec m p :
  isPositive m = true ->
  ratedAtLeast m p = true <-> exists r, google_rating p = Some r /\ num_ge r m = true.
Proof.
  intros Hm. unfold ratedAtLeast. destruct (google_rating p) as [r|].
  - rewrite andb_true_iff. split.
    + intros [_ Hge]. now exists r.
    + intros (r' & Heq & Hge). injection Heq as <-.
      split; [now apply (num_ge_positive_truthy r m) | exact Hge].
  - split; [discriminate | intros (r & Heq & _); discriminate Heq].
Qed.

(** C6. With at least one rating box ticked, the rating filter gives the
    same rows as it gives with the single box [Math.min] of the ticked
    ones.  For thresholds above zero, as all the panel's are, that value
    is one of the ticked thresholds and no larger than any of them, and
    the rows kept are exactly those that have a rating at or above it. *)
Theorem ratingStep_minimum q data :
  selectedRatings q <> [] ->
  ratingStep q data = ratingStep (withRatings [Math_min (selectedRatings q)] q) data /\
  (forallb isPositive (selectedRatings q) = true ->
   (In (Math_min (selectedRatings q)) (selectedRatings q) /\
    Forall (fun r => num_ge r (Math_min (selectedRatings q)) = true) (selectedRatings q)) /\
   forall p,
     In p (ratingStep q data) <->
     In p data /\
     exists r, google_rating p = Some r /\ num_ge r (Math_min (selectedRatings q)) = true).
Proof.
  intros Hne. split.
  - rewrite (ratingStep_filter q data Hne).
    unfold ratingStep, withRatings. simpl. now rewrite num_min_PosInf.
  - intros Hpos. split; [now apply Math_min_least|].
    intros p. rewrite (ratingStep_filter q data Hne), filter_In.
    now rewrite (ratedAtLeast_spec _ p (Math_min_positive _ Hpos)).
Qed.

Lemma ratingOptions_positive : forallb isPositive ratingOptions = true.
Proof. reflexivity. Qed.

(** C10. With at least one rating box ticked, a row whose rating is
    missing, null or zero is not kept, whatever the thresholds are. *)
Theorem ratingStep_excludes_unrated q data p :
  selectedRatings q <> [] ->
  (google_rating p = None \/ exists x, google_rating p = Some (Fin x) /\ (x == 0)%Q) ->
  ~ In p (ratingStep q data).
Proof.
  intros Hne Hrating. rewrite (ratingStep_filter q data Hne), filter_In.
  intros [_ Hkept]. unfold ratedAtLeast in Hkept.
  destruct Hrating as [Hnone | (x & Hzero & Hx)].
  - rewrite Hnone in Hkept. discriminate Hkept.
  - rewrite Hzero in Hkept. simpl in Hkept.
    apply Qeq_bool_iff in Hx. rewrite Hx in Hkept. discriminate Hkept.
Qed.

Lemma hasSelectedFeatures_spec toLowerCase selected p :
  selected <> [] ->
  hasSelectedFeatures toLowerCase selected p = true <->
  exists fs, features p = Some fs /\
             forall s, In s selected -> exists tag, In tag fs /\ matchesTag toLowerCase s tag.
Proof.
  intros Hne. unfold hasSelectedFeatures, matchesTag. rewrite forallb_forall.
  destruct (features p) as [fs|].
  - split.
    + intros Hall. exists fs. split; [reflexivity|]. intros s Hs.
      apply Hall, existsb_exists in Hs. destruct Hs as (tag & Htag & Hinc).
      exists tag. split; [exact Htag | now apply includes_spec].
    + intros (fs' & Heq & Hall) s Hs. injection Heq as <-.
      destruct (Hall s Hs) as (tag & Htag & Hinc).
      apply existsb_exists. exists tag. split; [exact Htag | now apply includes_spec].
  - split.
    + intros Hall. destruct selected as [|s rest]; [congruence|].
      specialize (Hall s (or_introl eq_refl)). discriminate Hall.
    + intros (fs & Heq & _). discriminate Heq.
Qed.

(** C7. With at least one feature box ticked, the features filter keeps
    exactly the rows that have a feature list in which every ticked
    feature is, case ignored, a substring of some tag; a row without a
    feature list is dropped. *)
Theorem featureStep_all_selected toLowerCase q data :
  selectedFeatures q <> [] ->
  (forall p,
     In p (featureStep toLowerCase q data) <->
     In p data /\
     exists fs, features p = Some fs /\
                forall s, In s (selectedFeatures q) ->
                          exists tag, In tag fs /\ matchesTag toLowerCase s tag) /\
  (forall p, features p = None -> ~ In p (featureStep toLowerCase q data)).
Proof.
  intros Hne.
  assert (Hiff : forall p,
     In p (featureStep toLowerCase q data) <->
     In p data /\
     exists fs, features p = Some fs /\
                forall s, In s (selectedFeatures q) ->
                          exists tag, In tag fs /\ matchesTag toLowerCase s tag).
  { intros p. unfold featureStep. rewrite (nonempty_guard _ Hne), filter_In.
    now rewrite (hasSelectedFeatures_spec toLowerCase _ p Hne). }
  split; [exact Hiff|].
  intros p Hnone Hin. apply Hiff in Hin. destruct Hin as (_ & fs & Heq & _). congruence.
Qed.

End FilterFacts.

Lemma ratingStep_minimum_witness :
  let q := Search.withRatings [Fin 3; Fin (45 # 10)] Search.anySearch in
  let p := Search.listing 9 (Some (Fin (31 # 10))) None None in
  Search.ratingStep q (p :: Search.mockPlaygrounds)
  = Search.ratingStep (Search.withRatings [Math_min [Fin 3; Fin (45 # 10)]] q)
      (p :: Search.mockPlaygrounds) /\
  (In p (Search.ratingStep q (p :: Search.mockPlaygrounds)) <->
   In p (p :: Search.mockPlaygrounds) /\
   exists r, Search.google_rating p = Some r /\
             num_ge r (Math_min [Fin 3; Fin (45 # 10)]) = true).
Proof.
  intros q p.
  pose proof (ratingStep_minimum q (p :: Search.mockPlaygrounds) ltac:(discriminate))
    as [Hsame Hkept].
  split; [exact Hsame | exact (proj2 (Hkept eq_refl) p)].
Defined.

Lemma ratingStep_excludes_unrated_witness :
  let q := Search.withRatings [Fin 3] Search.anySearch in
  let p := Search.listing 9 (Some (Fin 0)) None None in
  ~ In p (Search.ratingStep q (p :: Search.mockPlaygrounds)).
Proof.
  intros q p.
  apply (ratingStep_excludes_unrated q (p :: Search.mockPlaygrounds) p);
    [discriminate | right; exists 0%Q; split; reflexivity].
Defined.

Lemma featureStep_all_selected_witness :
  let q := Search.withFeatures ["soft"; "BALL"]%string Search.anySearch in
  let p := Search.listing 9 (Some (Fin 4)) None None in
  ~ In p (Search.featureStep Search.asciiLower q (p :: Search.mockPlaygrounds)).
Proof.
  intros q p.
  exact (proj2 (featureStep_all_selected Search.asciiLower q (p :: Search.mockPlaygrounds)
                  ltac:(discriminate)) p eq_refl).
Defined.

Section LateFacts.
Import Search.

Lemma isDigit_isGraph c : isDigit c = true -> isGraph c = true.
Proof.
  unfold isDigit, isGraph. rewrite !andb_true_iff, !Nat.leb_le. lia.
Qed.

Lemma isDigit_not (sep : ascii) :
  isDigit sep = false -> forall c, isDigit c = true -> negb (Ascii.eqb c sep) = true.
Proof.
  intros Hsep c Hc. destruct (Ascii.eqb_spec c sep) as [->|_]; [congruence | reflexivity].
Qed.

Lemma decimalFrom_digits acc s n : decimalFrom acc s = Some n -> allChars isDigit s = true.
Proof.
  revert acc. induction s as [|c s IH]; intros acc; simpl; [reflexivity|].
  destruct (isDigit c); [apply IH | discriminate].
Qed.

Lemma decimal_digits s n : decimal s = Some n -> allChars isDigit s = true /\ s <> EmptyString.
Proof.
  destruct s as [|c s]; [discriminate|].
  intros H. split; [exact (decimalFrom_digits _ _ _ H) | discriminate].
Qed.

Lemma append_nonempty (a b : string) : a <> EmptyString -> String.eqb (a +:+ b) "" = false.
Proof. destruct a; [congruence | reflexivity]. Qed.

(** On a well-formed range the callback compares the closing hour. *)
Lemma closesLate_closesAt trim Number range h :
  trimSpec trim -> NumberSpec Number -> closesAt range h ->
  closesLate trim Number range = (18 <=? h).
Proof.
  intros Htrim HNumber (oh & om & ch & cm & [a Ha] & [b Hb] & Hch & [c Hc] & ->).
  destruct (decimal_digits _ _ Ha) as [Doh Noh].
  destruct (decimal_digits _ _ Hb) as [Dom _].
  destruct (decimal_digits _ _ Hch) as [Dch Nch].
  destruct (decimal_digits _ _ Hc) as [Dcm _].
  set (closing := ch +:+ String ":" cm).
  assert (Hshape : oh +:+ ":" +:+ om +:+ "-" +:+ ch +:+ ":" +:+ cm
                   = (oh +:+ String ":" om) +:+ String "-" closing).
  { subst closing. rewrite append_assoc. reflexivity. }
  assert (Hdash : forall s, allChars isDigit s = true ->
                            allChars (fun c => negb (Ascii.eqb c "-")) s = true)
    by (intros s; apply allChars_impl, isDigit_not; reflexivity).
  assert (Hcolon : forall s, allChars isDigit s = true ->
                             allChars (fun c => negb (Ascii.eqb c ":")) s = true)
    by (intros s; apply allChars_impl, isDigit_not; reflexivity).
  assert (Hgraph : forall s, allChars isDigit s = true -> allChars isGraph s = true)
    by (intros s; apply allChars_impl, isDigit_isGraph).
  unfold closesLate.
  rewrite append_nonempty by exact Noh.
  rewrite Hshape, split_at, split_without; cycle 1.
  { subst closing. rewrite allChars_app. simpl. now rewrite !Hdash. }
  { rewrite allChars_app. simpl. now rewrite !Hdash. }
  simpl. rewrite Htrim; cycle 1.
  { subst closing. rewrite allChars_app. simpl. now rewrite !Hgraph. }
  subst closing. rewrite append_nonempty by exact Nch.
  rewrite split_at by now apply Hcolon.
  simpl. rewrite (HNumber _ _ Hch). simpl.
  unfold Qle_bool. simpl. now rewrite !Z.mul_1_r.
Qed.

Lemma matchesCategory_late toLowerCase trim Number p :
  matchesCategory toLowerCase trim Number "late" p =
  match opening_hours p with
  | None => false
  | Some hours => existsb (closesLate trim Number) (List.map snd hours)
  end.
Proof. reflexivity. Qed.

Lemma categoryStep_late toLowerCase trim Number q data p :
  category q = "late"%string ->
  In p (categoryStep toLowerCase trim Number q data) <->
  In p data /\ matchesCategory toLowerCase trim Number "late" p = true.
Proof. intros Hq. unfold categoryStep. rewrite Hq. simpl. apply filter_In. Qed.

(** The [try] branch guards its category filter by the row count as
    well; that changes nothing. *)
Lemma filterRows_steps toLowerCase trim Number q data :
  filterRows toLowerCase trim Number q data =
  openTodayStep q (ratingStep q (featureStep toLowerCase q
    (categoryStep toLowerCase trim Number q (default [] data)))).
Proof.
  unfold filterRows, categoryStep.
  destruct (String.eqb (category q) ""); simpl; [reflexivity|].
  now destruct (default [] data).
Qed.

Lemma closesAt_example (opens closes : string) h :
  is_Some (decimal opens) -> decimal closes = Some h ->
  closesAt (opens +:+ ":30-" +:+ closes +:+ ":30") h.
Proof.
  intros Ho Hc. exists opens, "30"%string, closes, "30"%string.
  repeat split; try assumption; now eexists.
Qed.

(** C8. With the category "late", the category filter keeps a row whose
    opening hours are all "HH:MM-HH:MM" ranges if and only if one of its
    days has a closing hour of 18 or more.  A row open on Friday
    "9:30-18:30" is kept, one open on Friday "9:30-17:30" is dropped. *)
Theorem lateCategory_closing_hour toLowerCase trim Number :
  trimSpec trim -> NumberSpec Number ->
  (forall q data p,
     category q = "late"%string ->
     (forall day range, In (day, range) (default [] (opening_hours p)) ->
                        exists h, closesAt range h) ->
     (In p (categoryStep toLowerCase trim Number q data) <->
      In p data /\
      exists day range h,
        In (day, range) (default [] (opening_hours p)) /\ closesAt range h /\ 18 <= h)) /\
  (forall q data p,
     category q = "late"%string ->
     opening_hours p = Some [("Friday", "9:30-18:30")]%string ->
     In p data -> In p (categoryStep toLowerCase trim Number q data)) /\
  (forall q data p,
     category q = "late"%string ->
     opening_hours p = Some [("Friday", "9:30-17:30")]%string ->
     ~ In p (categoryStep toLowerCase trim Number q data)).
Proof.
  intros Htrim HNumber.
  assert (Hlate : forall range h, closesAt range h ->
                    closesLate trim Number range = (18 <=? h))
    by (intros range h; now apply closesLate_closesAt).
  split; [|split].
  - intros q data p Hq Hwf. rewrite (categoryStep_late _ _ _ _ _ _ Hq), matchesCategory_late.
    destruct (opening_hours p) as [hours|]; simpl in *.
    + rewrite existsb_exists. split.
      * intros (Hin & range & Hrange & Hcl). split; [exact Hin|].
        apply in_map_iff in Hrange. destruct Hrange as ([day range'] & Heq & Hday).
        simpl in Heq. subst range'.
        destruct (Hwf day range Hday) as [h Hh].
        exists day, range, h. rewrite (Hlate _ _ Hh) in Hcl.
        repeat split; [exact Hday | exact Hh | lia].
      * intros (Hin & day & range & h & Hday & Hh & Hge). split; [exact Hin|].
        exists range. split; [apply in_map_iff; now exists (day, range)|].
        rewrite (Hlate _ _ Hh). lia.
    + split; [intros [_ H]; discriminate H | intros (_ & _ & _ & _ & [] & _)].
  - intros q data p Hq Hhours Hin.
    rewrite (categoryStep_late _ _ _ _ _ _ Hq), matchesCategory_late, Hhours.
    split; [exact Hin|]. simpl.
    rewrite (Hlate "9:30-18:30"%string 18); [reflexivity|].
    apply (closesAt_example "9" "18"); [now eexists | reflexivity].
  - intros q data p Hq Hhours.
    rewrite (categoryStep_late _ _ _ _ _ _ Hq), matchesCategory_late, Hhours.
    intros [_ Hkept]. simpl in Hkept.
    rewrite (Hlate "9:30-17:30"%string 17) in Hkept; [discriminate Hkept|].
    apply (closesAt_example "9" "17"); [now eexists | reflexivity].
Qed.

(** The ASCII host meets what the filters rely on. *)
Lemma isGraph_not_blank c : isGraph c = true -> isBlank c = false.
Proof.
  unfold isGraph, isBlank. rewrite andb_true_iff, !Nat.leb_le. intros [H1 H2].
  apply orb_false_iff. split.
  - apply Nat.eqb_neq. lia.
  - apply andb_false_iff. right. apply Nat.leb_gt. lia.
Qed.

Lemma trimEnd_graph s : allChars isGraph s = true -> trimEnd s = s.
Proof.
  induction s as [|c s IH]; simpl; [reflexivity|].
  rewrite andb_true_iff. intros [Hc Hs]. rewrite (IH Hs).
  destruct s; [now rewrite (isGraph_not_blank c Hc) | reflexivity].
Qed.

Lemma asciiTrim_spec : trimSpec asciiTrim.
Proof.
  intros s Hs. unfold asciiTrim.
  assert (Hstart : trimStart s = s).
  { destruct s as [|c s]; [reflexivity|]. simpl in *.
    apply andb_true_iff in Hs. destruct Hs as [Hc _].
    now rewrite (isGraph_not_blank c Hc). }
  rewrite Hstart. now apply trimEnd_graph.
Qed.

Lemma decimalNumber_spec : NumberSpec decimalNumber.
Proof.
  intros s n Hs. unfold decimalNumber.
  destruct (decimal_digits _ _ Hs) as [Hd _].
  rewrite asciiTrim_spec by (revert Hd; apply allChars_impl, isDigit_isGraph).
  now rewrite Hs.
Qed.

End LateFacts.

Lemma lateCategory_closing_hour_witness :
  let q := Search.withCategory "late" Search.anySearch in
  let late := Search.listing 1 None None (Some [("Friday", "9:30-18:30")]%string) in
  let early := Search.listing 2 None None (Some [("Friday", "9:30-17:30")]%string) in
  let kept := Search.categoryStep Search.asciiLower Search.asciiTrim Search.decimalNumber q
                [late; early] in
  (In late kept <->
   In late [late; early] /\
   exists day range h,
     In (day, range) [("Friday", "9:30-18:30")]%string /\
     Search.closesAt range h /\ 18 <= h) /\
  In late kept /\ ~ In early kept.
Proof.
  intros q late early kept. subst kept.
  destruct (lateCategory_closing_hour Search.asciiLower Search.asciiTrim Search.decimalNumber
              asciiTrim_spec decimalNumber_spec) as (Hiff & Hkept & Hdropped).
  split; [|split].
  - apply (Hiff q [late; early] late); [reflexivity|].
    intros day range [Heq | []]. injection Heq as _ <-. exists 18.
    apply (closesAt_example "9" "18"); [now eexists | reflexivity].
  - apply Hkept; [reflexivity | reflexivity | now left].
  - apply Hdropped; reflexivity.
Defined.

(** ** The chain on the bundled rows *)

Example filterMock_cafe_soft_rated :
  List.map Search.id
    (Search.filterMock Search.asciiLower Search.asciiTrim Search.decimalNumber
       {| Search.keyword := ""; Search.location := ""; Search.category := "cafe";
          Search.selectedFeatures := ["soft"]%string;
          Search.selectedRatings := [Fin 4; Fin 3];
          Search.openToday := true; Search.currentDay := "Monday" |}
       Search.mockPlaygrounds)
  = [1; 3].
Proof. vm_compute. reflexivity. Qed.

Example filterMock_late_rated :
  List.map Search.id
    (Search.filterMock Search.asciiLower Search.asciiTrim Search.decimalNumber
       (Search.withRatings [Fin (45 # 10)] (Search.withCategory "late" Search.anySearch))
       Search.mockPlaygrounds)
  = [1; 2].
Proof. vm_compute. reflexivity. Qed.

Example fetchPlaygrounds_remote_fails :
  Search.fetchPlaygrounds Search.asciiLower Search.asciiTrim Search.decimalNumber
    Search.anySearch (Search.RemoteThrows (mkError "Error" "Failed to fetch"))
  = (Search.mockPlaygrounds, true).
Proof. reflexivity. Qed.

(** * Further properties of the code *)

(** ** The cache: refresh, expiry and clearing *)

Section CacheMore.
Import Cache.

(** A call without a fresh entry invokes the fetcher exactly once. *)
Lemma fetchWithCache_stale_fetches key f ttl w :
  fresh key ttl w = false -> fetches (fetchWithCache key f ttl w).2 = 1%nat.
Proof.
  intros Hfr. destruct (f w) as [[d|err|] w1] eqn:Hf.
  - now rewrite (fetchWithCache_stored _ _ _ _ _ _ Hfr Hf).
  - now rewrite (fetchWithCache_failed _ _ _ _ _ _ Hfr Hf).
  - now rewrite (fetchWithCache_hangs _ _ _ _ _ Hfr Hf).
Qed.

(** X1. A refresh that succeeds returns the fetched payload, stores it
    under the key with the time at which the fetcher settled, and leaves
    every other key as the fetcher left it. *)
Theorem fetchWithCache_refresh_stores key f ttl w d w1 :
  fresh key ttl w = false -> f w = (Returned d, w1) ->
  let r := fetchWithCache key f ttl w in
  r.1.1 = Returned d /\
  cache r.1.2 !! key = Some {| data := d; timestamp := now w1 |} /\
  (forall k, k <> key -> cache r.1.2 !! k = cache w1 !! k) /\
  now r.1.2 = now w1.
Proof.
  intros Hfr Hf r. subst r. rewrite (fetchWithCache_stored _ _ _ _ _ _ Hfr Hf). simpl.
  split; [reflexivity|]. split; [apply lookup_insert_eq|].
  split; [|reflexivity]. intros k Hk. now apply lookup_insert_ne.
Qed.

Lemma fetchWithCache_refresh_stores_witness :
  let w := {| cache := {[ "venues"%string := {| data := VStr "old"; timestamp := 0 |} ]};
              now := 70000 |} in
  let r := fetchWithCache "venues" (resolvesWith (VStr "new") 25) 60000 w in
  r.1.1 = Returned (VStr "new") /\
  cache r.1.2 !! "venues"%string = Some {| data := VStr "new"; timestamp := 70025 |} /\
  (forall k, k <> "venues"%string -> cache r.1.2 !! k = cache (setNow 70025 w) !! k) /\
  now r.1.2 = 70025.
Proof.
  intros w.
  exact (fetchWithCache_refresh_stores "venues" (resolvesWith (VStr "new") 25) 60000 w
           (VStr "new") (setNow 70025 w) eq_refl eq_refl).
Defined.

(** X2. The fetcher is left alone exactly when the key has an entry less
    than [ttl] milliseconds old; an entry exactly [ttl] old is stale. *)
Theorem fetchWithCache_served_iff_fresh key f ttl w :
  (fetchWithCache key f ttl w).2 = [] <->
  exists e, cache w !! key = Some e /\ now w - timestamp e < ttl.
Proof.
  split.
  - intros Hlog. destruct (fresh key ttl w) eqn:Hfr.
    + unfold fresh in Hfr. destruct (cache w !! key) as [e|]; [|discriminate].
      exists e. split; [reflexivity | lia].
    + pose proof (fetchWithCache_stale_fetches key f ttl w Hfr) as H1.
      rewrite Hlog in H1. discriminate H1.
  - intros (e & He & Hage).
    rewrite (fetchWithCache_hit key f ttl w e He); [reflexivity | lia].
Qed.

(** X3. With a [ttl] of zero or less nothing is ever served from the
    cache: as long as no entry is stamped in the future, every call
    invokes the fetcher. *)
Theorem fetchWithCache_no_ttl key f ttl w :
  ttl <= 0 ->
  (forall e, cache w !! key = Some e -> timestamp e <= now w) ->
  fetches (fetchWithCache key f ttl w).2 = 1%nat.
Proof.
  intros Httl Hpast. apply fetchWithCache_stale_fetches. unfold fresh.
  destruct (cache w !! key) as [e|] eqn:He; [|reflexivity].
  specialize (Hpast e eq_refl). lia.
Qed.

Lemma fetchWithCache_no_ttl_witness :
  fetches (fetchWithCache "venues" (resolvesWith (VStr "rows") 5) 0
             {| cache := {[ "venues"%string := {| data := VStr "rows"; timestamp := 100 |} ]};
                now := 100 |}).2 = 1%nat.
Proof.
  apply fetchWithCache_no_ttl; [lia|].
  intros e He. simpl in He. apply lookup_singleton_Some in He.
  destruct He as [_ <-]. simpl. lia.
Defined.

(** X4. A failed refresh is not remembered: when the fetcher fails and a
    stale entry is served (or the error is thrown), the entry keeps its
    old timestamp, so any later call for the key invokes the fetcher
    again. *)
Theorem fetchWithCache_failure_retried key f g ttl w err w1 t2 :
  fresh key ttl w = false -> f w = (Thrown err, w1) -> cache w1 = cache w ->
  now w <= t2 ->
  fetches (fetchWithCache key g ttl (setNow t2 (fetchWithCache key f ttl w).1.2)).2 = 1%nat.
Proof.
  intros Hfr Hf Hsame Hlater. rewrite (fetchWithCache_failed _ _ _ _ _ _ Hfr Hf). simpl.
  apply fetchWithCache_stale_fetches. unfold fresh in *. simpl. rewrite Hsame.
  destruct (cache w !! key) as [e|]; [|reflexivity]. lia.
Qed.

Lemma fetchWithCache_failure_retried_witness :
  let w := {| cache := {[ "venues"%string := {| data := VStr "old"; timestamp := 0 |} ]};
              now := 70000 |} in
  let f := rejectsWith (mkError "Error" "offline") 30 in
  fetches (fetchWithCache "venues" f 60000
             (setNow 70031 (fetchWithCache "venues" f 60000 w).1.2)).2 = 1%nat.
Proof.
  intros w f.
  apply (fetchWithCache_failure_retried "venues" f f 60000 w (mkError "Error" "offline")
           (setNow 70030 w)); [reflexivity | reflexivity | reflexivity | simpl; lia].
Defined.

(** X5. [clearCache()] and [clearCache("")] (an empty key is falsy) both
    empty the cache, after which a call for any key invokes its
    fetcher. *)
Theorem clearCache_everything key w :
  key = None \/ key = Some EmptyString ->
  let w' := (clearCache key w).1.2 in
  cache w' = ∅ /\ now w' = now w /\
  forall k f ttl, fetches (fetchWithCache k f ttl w').2 = 1%nat.
Proof.
  intros Hkey w'.
  assert (Hw : w' = {| cache := ∅; now := now w |})
    by (subst w'; destruct Hkey as [-> | ->]; reflexivity).
  rewrite Hw. simpl. split; [reflexivity|]. split; [reflexivity|].
  intros k f ttl. apply fetchWithCache_stale_fetches. unfold fresh. simpl.
  now rewrite lookup_empty.
Qed.

Lemma clearCache_everything_witness :
  let w := {| cache := {[ "venues"%string := {| data := VStr "rows"; timestamp := 90 |} ]};
              now := 100 |} in
  let w' := (clearCache (Some EmptyString) w).1.2 in
  cache w' = ∅ /\ now w' = now w /\
  forall k f ttl, fetches (fetchWithCache k f ttl w').2 = 1%nat.
Proof. intros w. exact (clearCache_everything (Some EmptyString) w (or_intror eq_refl)). Defined.

(** X6. [clearCache(key)] with a non-empty key removes that key's entry
    and no other: the next call for the key invokes the fetcher, and
    every other key is as fresh or as stale as it was. *)
Theorem clearCache_one_key key w :
  key <> EmptyString ->
  let w' := (clearCache (Some key) w).1.2 in
  cache w' !! key = None /\
  (forall k, k <> key -> cache w' !! k = cache w !! k) /\
  (forall f ttl, fetches (fetchWithCache key f ttl w').2 = 1%nat) /\
  (forall k ttl, k <> key -> fresh k ttl w' = fresh k ttl w).
Proof.
  intros Hkey w'.
  assert (Hw : w' = {| cache := delete key (cache w); now := now w |}).
  { subst w'. unfold clearCache, modify. simpl.
    destruct (String.eqb_spec key ""); [congruence | reflexivity]. }
  rewrite Hw. simpl.
  split; [apply lookup_delete_eq|].
  split; [intros k Hk; now apply lookup_delete_ne|].
  split.
  - intros f ttl. apply fetchWithCache_stale_fetches. unfold fresh. simpl.
    now rewrite lookup_delete_eq.
  - intros k ttl Hk. unfold fresh. simpl. now rewrite lookup_delete_ne.
Qed.

Lemma clearCache_one_key_witness :
  let w := {| cache := {[ "venues"%string := {| data := VStr "rows"; timestamp := 90 |} ]};
              now := 100 |} in
  cache (clearCache (Some "venues"%string) w).1.2 !! "venues"%string = None.
Proof.
  intros w. exact (proj1 (clearCache_one_key "venues" w ltac:(discriminate))).
Defined.

End CacheMore.

(** ** The timeout wrappers: outcome, deadline, warnings *)

Section TimerMore.
Import Timers.

Lemma first_operation_le tie settles due : first tie settles due = Operation -> settles <= due.
Proof.
  unfold first. destruct (settles <? due) eqn:H1; [lia|].
  destruct (due <? settles) eqn:H2; [discriminate | lia].
Qed.

(** [supabaseFetch], case by case. *)
Lemma supabaseFetch_cases tie network l :
  let due := clock l + 10000 in
  let l1 := armed 10000 l in
  let cleared l2 :=
    {| clock := clock l2; timers := delete (nextTimer l) (timers l2);
       nextTimer := nextTimer l2 |} in
  let aborted :=
    (Returned mockResponse, cleared (fireTimer (nextTimer l) due l1),
     [EvWarn "Supabase fetch error:" (mkError "AbortError" "The operation was aborted.")]) in
  supabaseFetch tie network l =
    match network with
    | ResolvesAfter d v =>
        match first tie (clock l + d) due with
        | Operation => (Returned v, cleared (passTime (clock l + d) l1), [])
        | Timer => aborted
        end
    | RejectsAfter d e =>
        match first tie (clock l + d) due with
        | Operation => (Returned mockResponse, cleared (passTime (clock l + d) l1),
                        [EvWarn "Supabase fetch error:" e])
        | Timer => aborted
        end
    | NeverSettles => aborted
    end.
Proof.
  intros due l1 cleared aborted. subst due l1 cleared aborted.
  unfold supabaseFetch, bind, tryCatch, setTimeout, clearTimeout, awaitRace,
    modify, warn, ret. simpl.
  rewrite lookup_insert_eq.
  destruct network as [d v|d e|]; simpl; try reflexivity;
    change (clock l + 0 `max` 10000) with (clock l + 10000);
    destruct (first tie (clock l + d) (clock l + 10000)); reflexivity.
Qed.

(** X8. The custom fetch hands on the network's response when that
    arrives before the ten seconds are over, silently; in every other
    case (the request fails, is aborted by the timer, or never settles)
    it resolves with its made-up response and logs one warning. *)
Theorem supabaseFetch_response tie network l :
  let r := supabaseFetch tie network l in
  match network with
  | ResolvesAfter d v =>
      match first tie (clock l + d) (clock l + 10000) with
      | Operation => r.1.1 = Returned v /\ r.2 = []
      | Timer => r.1.1 = Returned mockResponse /\ List.length (warnings r.2) = 1%nat
      end
  | _ => r.1.1 = Returned mockResponse /\ List.length (warnings r.2) = 1%nat
  end.
Proof.
  intros r. subst r. rewrite supabaseFetch_cases.
  destruct network as [d v|d e|]; simpl;
    try destruct (first tie (clock l + d) (clock l + 10000)); simpl; split; reflexivity.
Qed.

(** X9. Both wrappers are done by their deadline: [fetchWithTimeout] no
    later than the (non-negative) timeout after the call, the custom
    fetch no later than ten seconds after it. *)
Theorem wrappers_meet_deadline tie l :
  (forall fetcher timeout fallback,
     clock (fetchWithTimeout tie fetcher timeout fallback l).1.2
     <= clock l + Z.max 0 timeout) /\
  (forall network, clock (supabaseFetch tie network l).1.2 <= clock l + 10000).
Proof.
  split.
  - intros fetcher timeout fallback. rewrite fetchWithTimeout_cases.
    destruct fetcher as [e|[d v|d e|]]; simpl; try lia;
      destruct (first tie (clock l + d) (clock l + Z.max 0 timeout)) eqn:Hf; simpl;
      try lia; now apply (first_operation_le tie).
  - intros network. rewrite supabaseFetch_cases.
    destruct network as [d v|d e|]; simpl; try lia;
      destruct (first tie (clock l + d) (clock l + 10000)) eqn:Hf; simpl;
      try lia; now apply (first_operation_le tie).
Qed.


(** X12. A timeout of zero or less gives the fallback for every operation
    that takes any time at all, even one that would resolve. *)
Theorem fetchWithTimeout_no_time tie d v timeout fallback l :
  timeout <= 0 -> 0 < d ->
  (fetchWithTimeout tie (Starts (ResolvesAfter d v)) timeout fallback l).1.1
  = Returned fallback.
Proof.
  intros Ht Hd. rewrite fetchWithTimeout_cases. simpl.
  rewrite first_timer_strict by lia. reflexivity.
Qed.

Lemma fetchWithTimeout_no_time_witness :
  (fetchWithTimeout Operation (Starts (ResolvesAfter 1 (VStr "rows"))) 0 (VStr "none")
     idle).1.1 = Returned (VStr "none").
Proof. apply fetchWithTimeout_no_time; lia. Defined.


End TimerMore.

(** ** The safe query wrapper: odd results and warnings *)

Section QueryMore.
Import Query.
Context {S : Type}.

Ltac run_query :=
  unfold safeSupabaseQuery, getProp, bind, tryCatch, invoke, warn, ret, throw; simpl.

(** X14. A query that resolves to something other than an object (a
    string, a number, a boolean) or to an object with neither an [error]
    nor a [data] property is reported as a success whose data is
    [undefined]. *)
Theorem safeSupabaseQuery_shapeless (queryFn : effect S value) fallbackData s result s1 :
  queryFn s = (Returned result, s1) ->
  nullish result = false ->
  field result "error" = VUndefined -> field result "data" = VUndefined ->
  (safeSupabaseQuery queryFn fallbackData s).1.1
  = Returned {| data := VUndefined; error := VNull; usedFallback := false |}.
Proof.
  intros Hq Hn He Hd. run_query. rewrite Hq. simpl. rewrite Hn. simpl.
  rewrite He. simpl. now rewrite Hd.
Qed.

(** X15. The answer's [usedFallback] tells whether a warning was logged:
    a success logs nothing, a fallback logs exactly one warning; and the
    fallback data is what comes back whenever [usedFallback] is set. *)
Theorem safeSupabaseQuery_flag_and_log (queryFn : effect S value) fallbackData s a :
  (safeSupabaseQuery queryFn fallbackData s).1.1 = Returned a ->
  List.length (warnings (safeSupabaseQuery queryFn fallbackData s).2)
  = (if usedFallback a then 1%nat else 0%nat) /\
  (usedFallback a = true -> data a = fallbackData) /\
  (usedFallback a = false -> error a = VNull).
Proof.
  run_query. destruct (queryFn s) as [[result|exn|] s1]; simpl.
  - destruct (nullish result); simpl.
    + intros H. injection H as <-. simpl. repeat split; congruence.
    + destruct (truthy (field result "error")); simpl;
        intros H; injection H as <-; simpl; repeat split; congruence.
  - intros H. injection H as <-. simpl. repeat split; congruence.
  - discriminate.
Qed.

End QueryMore.

Lemma safeSupabaseQuery_nullish_witness :
  (Query.safeSupabaseQuery (fun s : unit => (Returned VNull, s)) (VStr "mock") tt).1.1
  = Returned {| Query.data := VStr "mock";
                Query.error := mkError "TypeError" "Cannot read properties of null or undefined";
                Query.usedFallback := true |}.
Proof.
  exact (safeSupabaseQuery_nullish (fun s : unit => (Returned VNull, s)) (VStr "mock") tt
           VNull tt eq_refl eq_refl).
Defined.

Lemma safeSupabaseQuery_shapeless_witness :
  (Query.safeSupabaseQuery (fun s : unit => (Returned (VStr "ok"), s)) (VStr "mock") tt).1.1
  = Returned {| Query.data := VUndefined; Query.error := VNull;
                Query.usedFallback := false |}.
Proof.
  exact (safeSupabaseQuery_shapeless (fun s : unit => (Returned (VStr "ok"), s)) (VStr "mock")
           tt (VStr "ok") tt eq_refl eq_refl eq_refl eq_refl).
Defined.

Lemma safeSupabaseQuery_flag_and_log_witness :
  let q := fun s : unit =>
    (Returned (VObj [("data"%string, VNull); ("error"%string, VStr "denied")]), s) in
  let a := {| Query.data := VStr "mock"; Query.error := VStr "denied";
              Query.usedFallback := true |} in
  List.length (warnings (Query.safeSupabaseQuery q (VStr "mock") tt).2) = 1%nat /\
  (Query.usedFallback a = true -> Query.data a = VStr "mock") /\
  (Query.usedFallback a = false -> Query.error a = VNull).
Proof.
  intros q a. exact (safeSupabaseQuery_flag_and_log q (VStr "mock") tt a eq_refl).
Defined.

(** ** The filter chain as a whole *)

Section ChainFacts.
Import Search Page.

Lemma filter_twice {A} (f g : A -> bool) (l : list A) :
  List.filter f (List.filter g l) = List.filter (fun x => g x && f x) l.
Proof.
  induction l as [|x l IH]; simpl; [reflexivity|].
  destruct (g x); simpl; [destruct (f x); now rewrite IH | exact IH].
Qed.

Lemma filter_same {A} (f g : A -> bool) (l : list A) :
  (forall x, f x = g x) -> List.filter f l = List.filter g l.
Proof.
  intros Hfg. induction l as [|x l IH]; simpl; [reflexivity|].
  now rewrite Hfg, IH.
Qed.

Lemma filter_guarded {A} (guard : bool) (f : A -> bool) (l : list A) :
  (if guard then l else List.filter f l) = List.filter (fun x => guard || f x) l.
Proof.
  destruct guard; simpl; [|reflexivity].
  induction l as [|x l IH]; simpl; [reflexivity | now rewrite <- IH].
Qed.

Variable toLowerCase trim : string -> string.
Variable Number : string -> number.

Lemma keywordStep_filter q data :
  keywordStep toLowerCase q data = List.filter (keywordOk toLowerCase q) data.
Proof. unfold keywordStep, keywordOk. apply filter_guarded. Qed.

Lemma locationStep_filter q data :
  locationStep toLowerCase q data = List.filter (locationOk toLowerCase q) data.
Proof. unfold locationStep, locationOk. apply filter_guarded. Qed.

Lemma categoryStep_filter q data :
  categoryStep toLowerCase trim Number q data
  = List.filter (categoryOk toLowerCase trim Number q) data.
Proof. unfold categoryStep, categoryOk. apply filter_guarded. Qed.

Lemma featureStep_filter q data :
  featureStep toLowerCase q data = List.filter (featuresOk toLowerCase q) data.
Proof.
  unfold featureStep, featuresOk. rewrite <- filter_guarded.
  now destruct (0 <? List.length (selectedFeatures q))%nat.
Qed.

Lemma ratingStep_filter_guarded q data : ratingStep q data = List.filter (ratingsOk q) data.
Proof.
  unfold ratingStep, ratingsOk. rewrite <- filter_guarded.
  now destruct (0 <? List.length (selectedRatings q))%nat.
Qed.

Lemma openTodayStep_filter q data : openTodayStep q data = List.filter (openOk q) data.
Proof.
  unfold openTodayStep, openOk. rewrite <- filter_guarded. now destruct (openToday q).
Qed.

Ltac as_filters :=
  rewrite ?keywordStep_filter, ?locationStep_filter, ?categoryStep_filter,
    ?featureStep_filter, ?ratingStep_filter_guarded, ?openTodayStep_filter,
    ?filter_twice.

(** X16. The chain over the bundled rows is one filter: a row is shown
    exactly when it passes every filter that is switched on, in the order
    the rows came in.  So the order of the steps does not matter: run in
    the opposite order they give the same rows. *)
Theorem filterMock_one_filter q data :
  filterMock toLowerCase trim Number q data
  = List.filter (passes toLowerCase trim Number q) data /\
  keywordStep toLowerCase q (locationStep toLowerCase q
    (categoryStep toLowerCase trim Number q (featureStep toLowerCase q
      (ratingStep q (openTodayStep q data)))))
  = filterMock toLowerCase trim Number q data.
Proof.
  unfold filterMock. split; as_filters; apply filter_same; intros p; unfold passes;
    destruct (keywordOk toLowerCase q p), (locationOk toLowerCase q p),
      (categoryOk toLowerCase trim Number q p), (featuresOk toLowerCase q p),
      (ratingsOk q p), (openOk q p); reflexivity.
Qed.

(** X17. When the search has no keyword and no location, the branch for
    the remote rows and the branch for the bundled rows are the same
    function of the rows; a remote answer without rows ([data] null)
    shows nothing. *)
Theorem filterRows_agrees_with_filterMock q data :
  keyword q = EmptyString -> location q = EmptyString ->
  filterRows toLowerCase trim Number q (Some data)
  = filterMock toLowerCase trim Number q data /\
  filterRows toLowerCase trim Number q None = [].
Proof.
  intros Hk Hl. rewrite !filterRows_steps. unfold filterMock. simpl.
  split.
  - unfold keywordStep, locationStep. now rewrite Hk, Hl.
  - as_filters. reflexivity.
Qed.

(** X18. A category the code does not know (anything but the five it
    names) filters nothing. *)
Theorem categoryStep_unknown q data :
  ~ In (category q) ["toddler"; "party"; "cafe"; "parking"; "late"]%string ->
  categoryStep toLowerCase trim Number q data = data.
Proof.
  intros Hnot. unfold categoryStep.
  destruct (String.eqb (category q) ""); [reflexivity|].
  assert (Hall : forall p, matchesCategory toLowerCase trim Number (category q) p = true).
  { intros p. unfold matchesCategory.
    repeat match goal with
           | |- context [String.eqb (category q) ?c] =>
               destruct (String.eqb_spec (category q) c) as [Heq|_];
               [exfalso; apply Hnot; rewrite Heq; simpl; tauto|]
           end.
    reflexivity. }
  clear Hnot. induction data as [|p data IH]; simpl; [reflexivity|].
  now rewrite Hall, IH.
Qed.

End ChainFacts.

Lemma filterRows_agrees_with_filterMock_witness :
  let q := Search.withRatings [Fin 4] (Search.withCategory "cafe" Search.anySearch) in
  Search.filterRows Search.asciiLower Search.asciiTrim Search.decimalNumber q
    (Some Search.mockPlaygrounds)
  = Search.filterMock Search.asciiLower Search.asciiTrim Search.decimalNumber q
      Search.mockPlaygrounds.
Proof.
  intros q.
  exact (proj1 (filterRows_agrees_with_filterMock Search.asciiLower Search.asciiTrim
                  Search.decimalNumber q Search.mockPlaygrounds eq_refl eq_refl)).
Defined.

Lemma categoryStep_unknown_witness :
  Search.categoryStep Search.asciiLower Search.asciiTrim Search.decimalNumber
    (Search.withCategory "outdoor" Search.anySearch) Search.mockPlaygrounds
  = Search.mockPlaygrounds.
Proof.
  apply categoryStep_unknown. simpl.
  intros [H|[H|[H|[H|[H|[]]]]]]; discriminate H.
Defined.

(** ** Single filters *)

Section StepFacts.
Import Search Page.

Lemma existsb_same {A} (f g : A -> bool) (l : list A) :
  (forall x, f x = g x) -> existsb f l = existsb g l.
Proof.
  intros Hfg. induction l as [|x l IH]; simpl; [reflexivity | now rewrite Hfg, IH].
Qed.

(** In the four tag categories the callback looks for the category's
    keywords in the lower-cased tags. *)
Lemma matchesCategory_keywords toLowerCase trim Number c p :
  In c ["toddler"; "party"; "cafe"; "parking"]%string ->
  matchesCategory toLowerCase trim Number c p
  = existsb (fun f => existsb (includes f) (categoryKeywords c))
      (List.map toLowerCase (default [] (features p))).
Proof.
  intros [<-|[<-|[<-|[<-|[]]]]]; unfold matchesCategory, categoryKeywords; simpl;
    apply existsb_same; intros f; simpl; now rewrite orb_false_r, !orb_assoc.
Qed.

(** X19. In the categories "toddler", "party", "cafe" and "parking" a row
    matches exactly when it has a feature list with a tag whose
    lower-cased text contains one of the category's keywords; a row
    without a feature list never matches. *)
Theorem tagCategory_matches toLowerCase trim Number c p :
  In c ["toddler"; "party"; "cafe"; "parking"]%string ->
  (matchesCategory toLowerCase trim Number c p = true <->
   exists fs tag kw,
     features p = Some fs /\ In tag fs /\ In kw (categoryKeywords c) /\
     exists pre post, toLowerCase tag = pre +:+ kw +:+ post) /\
  (features p = None -> matchesCategory toLowerCase trim Number c p = false).
Proof.
  intros Hc. rewrite (matchesCategory_keywords _ _ _ _ _ Hc).
  split.
  - rewrite existsb_exists. split.
    + intros (f & Hf & Hkw). apply in_map_iff in Hf. destruct Hf as (tag & <- & Htag).
      apply existsb_exists in Hkw. destruct Hkw as (kw & Hkw & Hinc).
      destruct (features p) as [fs|]; [|contradiction].
      exists fs, tag, kw. repeat split; try assumption. now apply includes_spec.
    + intros (fs & tag & kw & Hfs & Htag & Hkw & Hinc). rewrite Hfs. simpl.
      exists (toLowerCase tag). split; [now apply in_map|].
      apply existsb_exists. exists kw. split; [exact Hkw | now apply includes_spec].
  - intros Hnone. now rewrite Hnone.
Qed.

(** X20. Ticking one more rating box never hides a row: the threshold is
    the least of the ticked ones, so it can only go down. *)
Theorem ratingStep_more_boxes q data rs r p :
  rs <> [] -> forallb isPositive (r :: rs) = true ->
  In p (ratingStep (withRatings rs q) data) ->
  In p (ratingStep (withRatings (r :: rs) q) data).
Proof.
  intros Hne Hpos.
  rewrite !ratingStep_filter by (simpl; congruence). simpl.
  rewrite !filter_In. intros [Hin Hkept]. split; [exact Hin|].
  simpl in Hpos. apply andb_true_iff in Hpos. destruct Hpos as [Hr Hrs].
  pose proof (Math_min_positive rs Hrs) as Hm.
  unfold ratedAtLeast in *. destruct (google_rating p) as [x|]; [|discriminate].
  apply andb_true_iff in Hkept. destruct Hkept as [Ht Hge].
  rewrite Ht. simpl.
  eapply num_ge_trans; [exact Hge | now apply num_min_ge_r].
Qed.

(** X21. Ticking more feature boxes never adds a row: whatever is shown
    for a selection is shown for every selection contained in it. *)
Theorem featureStep_fewer_boxes toLowerCase q data fs fs' p :
  (forall s, In s fs -> In s fs') ->
  In p (featureStep toLowerCase (withFeatures fs' q) data) ->
  In p (featureStep toLowerCase (withFeatures fs q) data).
Proof.
  intros Hsub. unfold featureStep. simpl.
  destruct fs' as [|s' fs'].
  - destruct fs as [|s fs]; [trivial|]. exfalso. exact (Hsub s (or_introl eq_refl)).
  - simpl. rewrite filter_In. intros [Hin Hall].
    destruct fs as [|s fs]; [exact Hin|]. simpl (0 <? _)%nat. cbv iota.
    apply filter_In. split; [exact Hin|].
    unfold hasSelectedFeatures in *. rewrite forallb_forall in *.
    intros x Hx. apply Hall, Hsub, Hx.
Qed.

End StepFacts.

Lemma tagCategory_matches_witness :
  let p := Search.listing 1 None (Some ["Free Parking"; "Ball Pit"]%string) None in
  Search.matchesCategory Search.asciiLower Search.asciiTrim Search.decimalNumber "parking" p
  = true <->
  exists fs tag kw,
    Search.features p = Some fs /\ In tag fs /\ In kw (Page.categoryKeywords "parking") /\
    exists pre post, Search.asciiLower tag = pre +:+ kw +:+ post.
Proof.
  intros p.
  exact (proj1 (tagCategory_matches Search.asciiLower Search.asciiTrim Search.decimalNumber
                  "parking" p ltac:(simpl; tauto))).
Defined.

Lemma ratingStep_more_boxes_witness :
  let p := Search.listing 9 (Some (Fin 4)) None None in
  In p (Search.ratingStep (Search.withRatings [Fin (45 # 10); Fin 4] Search.anySearch) [p]).
Proof.
  intros p.
  exact (ratingStep_more_boxes Search.anySearch [p] [Fin 4] (Fin (45 # 10)) p
           ltac:(discriminate) eq_refl (or_introl eq_refl)).
Defined.

Lemma featureStep_fewer_boxes_witness :
  let p := Search.listing 9 None (Some ["Soft Play"; "Ball Pit"]%string) None in
  In p (Search.featureStep Search.asciiLower
          (Search.withFeatures ["ball"]%string Search.anySearch) [p]).
Proof.
  intros p.
  apply (featureStep_fewer_boxes Search.asciiLower Search.anySearch [p]
           ["ball"]%string ["soft"; "ball"]%string p).
  - intros s [<-|[]]. right. now left.
  - now left.
Defined.

(** ** The filter panel *)

Section PanelFacts.
Import Search Page.

Lemma existsb_snoc {A} (f : A -> bool) l x : existsb f (l ++ [x]) = existsb f l || f x.
Proof. rewrite existsb_app. simpl. now rewrite orb_false_r. Qed.

Lemma NoDup_snoc {A} (l : list A) x :
  List.NoDup l -> ~ In x l -> List.NoDup (l ++ [x]).
Proof.
  induction 1 as [|y l Hy Hl IH]; simpl; intros Hx.
  - apply List.NoDup_cons; [simpl; tauto | apply List.NoDup_nil].
  - apply List.NoDup_cons.
    + rewrite in_app_iff. simpl. intros [H|[H|[]]]; [now apply Hy | subst; apply Hx; now left].
    + apply IH. intros H. apply Hx. now right.
Qed.

Lemma NoDup_filter_keep {A} (f : A -> bool) (l : list A) :
  List.NoDup l -> List.NoDup (List.filter f l).
Proof.
  induction 1 as [|y l Hy Hl IH]; simpl; [apply List.NoDup_nil|].
  destruct (f y); [|exact IH]. apply List.NoDup_cons; [|exact IH].
  intros H. apply filter_In in H. now apply Hy.
Qed.

(** X22. Toggling a feature flips its box and no other, and a selection
    without repeats stays without repeats. *)
Theorem toggleFeature_flips prev feature :
  featureChecked (toggleFeature prev feature) feature = negb (featureChecked prev feature) /\
  (forall other, other <> feature ->
     featureChecked (toggleFeature prev feature) other = featureChecked prev other) /\
  (List.NoDup prev -> List.NoDup (toggleFeature prev feature)).
Proof.
  unfold toggleFeature. destruct (featureChecked prev feature) eqn:Hc; simpl.
  - split; [|split].
    + unfold featureChecked. clear Hc. induction prev as [|f prev IH]; simpl; [reflexivity|].
      destruct (String.eqb f feature) eqn:Hf; simpl; [exact IH | now rewrite Hf].
    + intros other Hne. unfold featureChecked. clear Hc.
      induction prev as [|f prev IH]; simpl; [reflexivity|].
      destruct (String.eqb_spec f feature) as [->|Hf]; simpl.
      * rewrite IH. destruct (String.eqb_spec feature other); [congruence | reflexivity].
      * now rewrite IH.
    + apply NoDup_filter_keep.
  - split; [|split].
    + unfold featureChecked. rewrite existsb_snoc, String.eqb_refl. apply orb_true_r.
    + intros other Hne. unfold featureChecked. rewrite existsb_snoc.
      destruct (String.eqb_spec feature other); [congruence | apply orb_false_r].
    + intros Hnd. apply NoDup_snoc; [exact Hnd|].
      intros Hin. unfold featureChecked in Hc.
      assert (existsb (fun f => String.eqb f feature) prev = true)
        by (apply existsb_exists; exists feature; split; [exact Hin | apply String.eqb_refl]).
      congruence.
Qed.

Lemma strictEq_refl r : r <> NaN -> strictEq r r = true.
Proof. destruct r; simpl; try congruence. intros _. apply Qeq_bool_iff, Qeq_refl. Qed.

Lemma sameValueZero_refl r : sameValueZero r r = true.
Proof. destruct r; simpl; try reflexivity. apply Qeq_bool_iff, Qeq_refl. Qed.

Lemma strictEq_sym a b : strictEq a b = strictEq b a.
Proof.
  destruct a as [| |x|], b as [| |y|]; simpl; try reflexivity.
  destruct (Qeq_bool x y) eqn:H1, (Qeq_bool y x) eqn:H2; try reflexivity.
  - apply Qeq_bool_iff, Qeq_sym, Qeq_bool_iff in H1. congruence.
  - apply Qeq_bool_iff, Qeq_sym, Qeq_bool_iff in H2. congruence.
Qed.

Lemma strictEq_trans a b c : strictEq a b = true -> strictEq b c = true -> strictEq a c = true.
Proof.
  destruct a as [| |x|], b as [| |y|], c as [| |z|]; simpl; try discriminate; auto.
  rewrite !Qeq_bool_iff. apply Qeq_trans.
Qed.

Lemma sameValueZero_strict a b : b <> NaN -> sameValueZero a b = strictEq a b.
Proof. destruct a, b; simpl; congruence. Qed.

Lemma toggleRating_NoDup prev rating :
  List.NoDup prev -> List.NoDup (toggleRating prev rating).
Proof.
  intros Hnd. unfold toggleRating. destruct (ratingChecked prev rating) eqn:Hc.
  - now apply NoDup_filter_keep.
  - apply NoDup_snoc; [exact Hnd|].
    intros Hin. unfold ratingChecked in Hc.
    assert (existsb (fun r => sameValueZero r rating) prev = true)
      by (apply existsb_exists; exists rating; split;
          [exact Hin | apply sameValueZero_refl]).
    congruence.
Qed.

(** X23. Toggling a rating (any number but [NaN]) flips its box and no
    box of a different number, and a selection without repeats stays
    without repeats. *)
Theorem toggleRating_flips prev rating :
  rating <> NaN ->
  ratingChecked (toggleRating prev rating) rating = negb (ratingChecked prev rating) /\
  (forall other, strictEq other rating = false -> other <> NaN ->
     ratingChecked (toggleRating prev rating) other = ratingChecked prev other) /\
  (List.NoDup prev -> List.NoDup (toggleRating prev rating)).
Proof.
  intros Hnan. split; [|split]; [| |apply toggleRating_NoDup].
  - unfold toggleRating. destruct (ratingChecked prev rating) eqn:Hc; simpl.
    + unfold ratingChecked. clear Hc. induction prev as [|r prev IH]; simpl; [reflexivity|].
      destruct (strictEq r rating) eqn:Hr; simpl; [exact IH|].
      now rewrite (sameValueZero_strict r rating Hnan), Hr.
    + unfold ratingChecked. rewrite existsb_snoc, sameValueZero_refl. apply orb_true_r.
  - intros other Hne Hother.
    unfold toggleRating. destruct (ratingChecked prev rating) eqn:Hc; simpl.
    + unfold ratingChecked. clear Hc.
      induction prev as [|r prev IH]; simpl; [reflexivity|].
      destruct (strictEq r rating) eqn:Hr; simpl; [|now rewrite IH].
      rewrite IH. rewrite (sameValueZero_strict r other Hother).
      destruct (strictEq r other) eqn:Hro; [|reflexivity].
      rewrite strictEq_sym in Hro.
      rewrite (strictEq_trans other r rating Hro Hr) in Hne. discriminate Hne.
    + unfold ratingChecked. rewrite existsb_snoc.
      rewrite (sameValueZero_strict rating other Hother), strictEq_sym, Hne.
      apply orb_false_r.
Qed.

(** X24. Whatever boxes a visitor ticks and unticks, the selected ratings
    are thresholds of the panel, each at most once, and so all above
    zero. *)
Theorem reachableRatings_invariant selected :
  reachableRatings selected ->
  Forall (fun r => In r ratingOptions) selected /\ List.NoDup selected /\
  forallb isPositive selected = true.
Proof.
  intros Hreach.
  assert (Hinv : Forall (fun r => In r ratingOptions) selected /\ List.NoDup selected).
  { induction Hreach as [|selected rating _ [IHall IHnd] Hopt].
    - split; [constructor | apply List.NoDup_nil].
    - split; [|now apply toggleRating_NoDup].
      unfold toggleRating. destruct (ratingChecked selected rating).
      + apply List.Forall_forall. intros r Hr. apply filter_In in Hr. destruct Hr as [Hr _].
        revert r Hr. now apply List.Forall_forall.
      + apply Forall_app. split; [exact IHall | now constructor]. }
  destruct Hinv as [Hall Hnd]. split; [exact Hall|]. split; [exact Hnd|].
  apply forallb_forall. intros r Hr.
  assert (Hopt : In r ratingOptions) by (revert r Hr; now apply List.Forall_forall).
  simpl in Hopt. destruct Hopt as [<-|[<-|[<-|[<-|[]]]]]; reflexivity.
Qed.

End PanelFacts.

Lemma toggleRating_flips_witness :
  Page.ratingChecked (Page.toggleRating [Fin 4; Fin 3] (Fin 4)) (Fin 4)
  = negb (Page.ratingChecked [Fin 4; Fin 3] (Fin 4)).
Proof.
  exact (proj1 (toggleRating_flips [Fin 4; Fin 3] (Fin 4) ltac:(discriminate))).
Defined.

Lemma reachableRatings_invariant_witness :
  forallb isPositive (Page.toggleRating (Page.toggleRating [] (Fin 3)) (Fin (45 # 10))) = true.
Proof.
  apply reachableRatings_invariant.
  apply Page.ratings_toggled; [apply Page.ratings_toggled; [apply Page.ratings_cleared|]|];
    simpl; tauto.
Defined.

(** ** Slugs *)

Section SlugFacts.
Import Search Page.

Lemma dropOthers_chars s :
  allChars (fun c => isWord c || isBlank c || isHyphen c) (dropOthers s) = true.
Proof.
  induction s as [|c s IH]; simpl; [reflexivity|].
  destruct (isWord c || isBlank c || isHyphen c) eqn:Hc; simpl; [now rewrite Hc | exact IH].
Qed.

Lemma dashBlanks_chars inRun s :
  allChars (fun c => isWord c || isBlank c || isHyphen c) s = true ->
  allChars (fun c => isWord c || isHyphen c) (dashBlanks inRun s) = true.
Proof.
  revert inRun. induction s as [|c s IH]; intros inRun; simpl; [reflexivity|].
  rewrite andb_true_iff. intros [Hc Hs].
  destruct (isBlank c) eqn:Hb.
  - destruct inRun; simpl; [now apply IH | now rewrite (IH true Hs)].
  - simpl. rewrite (IH false Hs), andb_true_r.
    rewrite orb_false_r in Hc. exact Hc.
Qed.

Lemma dashBlanks_no_blank inRun s :
  allChars (fun c => negb (isBlank c)) (dashBlanks inRun s) = true.
Proof.
  revert inRun. induction s as [|c s IH]; intros inRun; simpl; [reflexivity|].
  destruct (isBlank c) eqn:Hb.
  - destruct inRun; simpl; [apply IH | now rewrite IH].
  - simpl. now rewrite Hb, IH.
Qed.

(** X25. On ASCII text the slug of a name consists of letters, digits,
    underscores and hyphens only (so it has no blank, slash, dot or
    question mark), and the slug of a city has no blank. *)
Theorem slugs_are_safe toLowerCase text :
  allChars isAscii (toLowerCase text) = true ->
  allChars (fun c => isWord c || isHyphen c) (generateSlug toLowerCase text) = true /\
  allChars (fun c => negb (isBlank c)) (citySlug toLowerCase text) = true.
Proof.
  intros _. split.
  - unfold generateSlug. apply dashBlanks_chars, dropOthers_chars.
  - unfold citySlug. apply dashBlanks_no_blank.
Qed.

End SlugFacts.

Lemma slugs_are_safe_witness :
  Search.allChars (fun c => Page.isWord c || Page.isHyphen c)
    (Page.generateSlug Search.asciiLower "Jungle Jim's  Play & Party!") = true /\
  Search.allChars (fun c => negb (Search.isBlank c))
    (Page.citySlug Search.asciiLower "Jungle Jim's  Play & Party!") = true.
Proof. exact (slugs_are_safe Search.asciiLower "Jungle Jim's  Play & Party!" eq_refl). Defined.

Example generateSlug_example :
  Page.generateSlug Search.asciiLower "Jungle Jim's  Play & Party!" = "jungle-jims-play-party"%string.
Proof. vm_compute. reflexivity. Qed.

(** ** What the page shows after the effect *)

Section ViewFacts.
Import Search Page.
Variable toLowerCase trim : string -> string.
Variable Number : string -> number.

(** X26. When the remote query throws or answers with an error, the page
    ends with the sample-data note and the error alert, the heading
    counts the bundled rows that pass the filters, and none of the four
    result blocks (no results, grid, list, map) is rendered: the rows are
    kept in the state but not shown. *)
Theorem failed_fetch_shows_no_rows q r st :
  match r with
  | RemoteThrows _ => True
  | RemoteAnswers _ error => truthy error = true
  end ->
  let st' := afterFetch toLowerCase trim Number q r st in
  let scr := render st' in
  playgrounds st' = filterMock toLowerCase trim Number q mockPlaygrounds /\
  sampleNote scr = true /\ errorAlert scr = true /\ spinner scr = false /\
  found scr = List.length (filterMock toLowerCase trim Number q mockPlaygrounds) /\
  noResults scr = false /\ resultsGrid scr = false /\
  resultsList scr = false /\ resultsMap scr = false.
Proof.
  intros Hr st' scr. subst scr st'. unfold afterFetch, fetchPlaygrounds.
  destruct r as [e|data error]; [|rewrite Hr]; simpl; repeat split; reflexivity.
Qed.

(** X27. When the remote query answers without an error, the page ends
    without note, alert or spinner, and renders exactly one result block:
    "no results" when no row passes the filters, otherwise the block of
    the current view mode. *)
Theorem successful_fetch_shows_one_block q data error st :
  truthy error = false ->
  let st' := afterFetch toLowerCase trim Number q (RemoteAnswers data error) st in
  let scr := render st' in
  let rows := filterRows toLowerCase trim Number q data in
  playgrounds st' = rows /\
  sampleNote scr = false /\ errorAlert scr = false /\ spinner scr = false /\
  noResults scr = (List.length rows =? 0)%nat /\
  resultsGrid scr = ((0 <? List.length rows)%nat &&
                     match view st with GridView => true | _ => false end) /\
  resultsList scr = ((0 <? List.length rows)%nat &&
                     match view st with ListView => true | _ => false end) /\
  resultsMap scr = ((0 <? List.length rows)%nat &&
                    match view st with MapView => true | _ => false end) /\
  (Nat.b2n (noResults scr) + Nat.b2n (resultsGrid scr) +
   Nat.b2n (resultsList scr) + Nat.b2n (resultsMap scr) = 1)%nat.
Proof.
  intros Herr st' scr rows. subst scr st' rows. unfold afterFetch, fetchPlaygrounds.
  rewrite Herr. simpl.
  repeat (split; [reflexivity|]).
  destruct (filterRows toLowerCase trim Number q data); simpl; [reflexivity|].
  destruct (view st); reflexivity.
Qed.

End ViewFacts.

Lemma failed_fetch_shows_no_rows_witness :
  let st0 := {| Page.playgrounds := []; Page.loading := true; Page.error := None;
                Page.useMockData := false; Page.view := Page.GridView |} in
  let st' := Page.afterFetch Search.asciiLower Search.asciiTrim Search.decimalNumber
               Search.anySearch
               (Search.RemoteAnswers None (VStr "permission denied")) st0 in
  Page.playgrounds st' = Search.mockPlaygrounds /\
  Page.found (Page.render st') = 3%nat /\
  Page.resultsGrid (Page.render st') = false.
Proof.
  intros st0 st'.
  pose proof (failed_fetch_shows_no_rows Search.asciiLower Search.asciiTrim
                Search.decimalNumber Search.anySearch
                (Search.RemoteAnswers None (VStr "permission denied")) st0 eq_refl)
    as (Hrows & _ & _ & _ & Hfound & _ & Hgrid & _).
  split; [exact Hrows|]. split; [exact Hfound | exact Hgrid].
Defined.

Lemma successful_fetch_shows_one_block_witness :
  let st0 := {| Page.playgrounds := []; Page.loading := true; Page.error := None;
                Page.useMockData := false; Page.view := Page.ListView |} in
  let scr := Page.render
               (Page.afterFetch Search.asciiLower Search.asciiTrim Search.decimalNumber
                  Search.anySearch (Search.RemoteAnswers (Some Search.mockPlaygrounds) VNull)
                  st0) in
  Page.resultsList scr = true /\ Page.resultsGrid scr = false /\ Page.noResults scr = false.
Proof.
  intros st0 scr.
  pose proof (successful_fetch_shows_one_block Search.asciiLower Search.asciiTrim
                Search.decimalNumber Search.anySearch (Some Search.mockPlaygrounds) VNull
                st0 eq_refl)
    as (_ & _ & _ & _ & Hnone & Hgrid & Hlist & _).
  split; [exact Hlist|]. split; [exact Hgrid | exact Hnone].
Defined.

(** ** The cookie banner *)

Section ConsentFacts.
Import Consent.




End ConsentFacts.


